(** * Task queries: a shallow embedding of [src/app/_lib/queries.ts]

    The module builds one filtered, sorted and paginated read of the [tasks]
    table ([getTasks]) and four cached aggregate counts.  Promises are
    modelled by an error monad ([outcome]); the storage engine, drizzle's
    condition combinators and Next's tag cache are the external
    collaborators, modelled by their contracts.  The table declaration
    ([@/db/schema]), the request type ([./validations]) and [filterColumn]
    ([@/lib/filter-column]) are not part of the sources: the first two
    are taken in the shape the code uses them, the last one is a
    parameter. *)

From Stdlib Require Import Ascii String QArith Qround.
From stdpp Require Import base option list gmap strings pretty sorting.

Open Scope string_scope.
Open Scope Z_scope.

(** ** Promises that may reject *)

Inductive Error : Type :=
  | StorageError (msg : string).

Inductive outcome (A : Type) : Type :=
  | Return (a : A)
  | Throw (e : Error).
Arguments Return {A} a.
Arguments Throw {A} e.

#[global] Instance outcome_ret : MRet outcome := fun A a => Return a.
#[global] Instance outcome_bind : MBind outcome := fun A B k m =>
  match m with
  | Return a => k a
  | Throw e => Throw e
  end.

(** [try { body } catch (err) { handler }] *)
Definition try_catch {A} (body : outcome A) (handler : Error → outcome A)
  : outcome A :=
  match body with
  | Return a => Return a
  | Throw e => handler e
  end.

Definition throws {A} (m : outcome A) : Prop := ∃ e, m = Throw e.

(** ** JavaScript strings and values *)

(** A string used as a condition: [undefined] and [""] are falsy. *)
Definition truthy (o : option string) : bool :=
  match o with
  | Some s => negb (String.eqb s "")
  | None => false
  end.

(** [s.split(".")] *)
Fixpoint split_dot (s : string) : list string :=
  match s with
  | EmptyString => [""]
  | String c s' =>
      if Ascii.eqb c "."%char then "" :: split_dot s'
      else match split_dot s' with
           | h :: t => String c h :: t
           | [] => [String c ""]
           end
  end.

(** [xs.filter(Boolean)] on an array of strings *)
Definition filter_Boolean (xs : list string) : list string :=
  List.filter (fun s => negb (String.eqb s "")) xs.

(** A JavaScript number that came out of integer arithmetic. *)
Inductive number : Type :=
  | Num (z : Z)
  | Infinity
  | NegInfinity
  | NaN.

(** [Math.ceil(a / b)] on integers [a] and [b]: the quotient is read as an
    exact rational, which is what the double arithmetic gives on the range
    of row counts; dividing by zero gives an infinity or [NaN]. *)
Definition Math_ceil_div (a b : Z) : number :=
  if b =? 0 then
    if a =? 0 then NaN else if 0 <? a then Infinity else NegInfinity
  else Num (Qceiling (inject_Z a / inject_Z b)%Q).

(** Cell values of a row: text and timestamps. *)
Inductive Value : Type :=
  | VText (s : string)
  | VTime (t : Z).

#[global] Instance Value_eq_dec : EqDecision Value.
Proof. solve_decision. Defined.

Definition value_leb (a b : Value) : bool :=
  match a, b with
  | VText x, VText y => String.leb x y
  | VTime x, VTime y => x <=? y
  | _, _ => false
  end.

(** The property key a value turns into in [acc[status] = count]. *)
Definition key_of (v : Value) : string :=
  match v with
  | VText s => s
  | VTime t => pretty t
  end.

(** ** The table object and SQL fragments (drizzle-orm) *)

Module Schema.
(** Modelled from the spec: the table object [tasks] of [@/db/schema],
    which is not among the sources.  It has the five columns of the spec's
    Task that the module reads by name, and the other properties of the
    object, own or inherited; such a property is a further column
    ([Some c]) or no column at all ([None]: a method of the prototype,
    say). *)
Record PgTable (Column : Type) : Type := {
  id : Column;
  title : Column;
  status : Column;
  priority : Column;
  createdAt : Column;
  others : gmap string (option Column)
}.
Arguments id {Column}.
Arguments title {Column}.
Arguments status {Column}.
Arguments priority {Column}.
Arguments createdAt {Column}.
Arguments others {Column}.

(** All properties of the object, by name. *)
Definition props {Column} (t : PgTable Column)
  : gmap string (option Column) :=
  <["id" := Some (id t)]> (<["title" := Some (title t)]>
  (<["status" := Some (status t)]> (<["priority" := Some (priority t)]>
  (<["createdAt" := Some (createdAt t)]> (others t))))).
End Schema.

(** drizzle-orm: order terms, conditions and the variadic combinators. *)
Module drizzle.
(** What an order term is built from, the value of a property read
    [tasks[column]]: a column, some other value, or [undefined]. *)
Inductive Operand (Column : Type) : Type :=
  | Col (c : Column)
  | Other
  | Undefined.
Arguments Col {Column} c.
Arguments Other {Column}.
Arguments Undefined {Column}.

Inductive OrderBy (Column : Type) : Type :=
  | asc (o : Operand Column)
  | desc (o : Operand Column).
Arguments asc {Column} o.
Arguments desc {Column} o.

#[warnings="-register-all"] Inductive SQL (Column Task : Type) : Type :=
  | Custom (p : Task → bool)
  | gte (c : Column) (v : Value)
  | lte (c : Column) (v : Value)
  | eq (c : Column) (v : Value)
  | And (l : list (SQL Column Task))
  | Or (l : list (SQL Column Task)).
Arguments Custom {Column Task} p.
Arguments gte {Column Task} c v.
Arguments lte {Column Task} c v.
Arguments eq {Column Task} c v.
Arguments And {Column Task} l.
Arguments Or {Column Task} l.

(** The conditions that are not [undefined]. *)
Definition present {A} (xs : list (option A)) : list A := omap id xs.

(** [and(...conditions)]: [undefined] entries are dropped; no condition
    left gives [undefined], a single one is returned as it is. *)
Definition and {Column Task} (conditions : list (option (SQL Column Task)))
  : option (SQL Column Task) :=
  match present conditions with
  | [] => None
  | [c] => Some c
  | cs => Some (And cs)
  end.

(** [or(...conditions)], likewise. *)
Definition or {Column Task} (conditions : list (option (SQL Column Task)))
  : option (SQL Column Task) :=
  match present conditions with
  | [] => None
  | [c] => Some c
  | cs => Some (Or cs)
  end.
End drizzle.

Import drizzle.

(** ** The request and the result of [getTasks] *)

(** Modelled from the spec: the request type [GetTasksSchema] of
    [./validations], which is not among the sources.  The fields are those
    of the spec's query request under the names [getTasks] reads them by;
    optional fields may be [undefined]. *)
Record GetTasksSchema : Type := {
  page : Z;
  per_page : Z;
  sort : option string;
  title : option string;
  status : option string;
  priority : option string;
  from : option string;
  to : option string;
  operator : option string
}.

Record Result (Task : Type) : Type := {
  data : list Task;
  pageCount : number
}.
Arguments data {Task}.
Arguments pageCount {Task}.

(** ** Storage *)

Section Storage.
Context {Column Task : Type}.
(** The value a row holds in a column. *)
Variable cell : Column → Task → Value.

Fixpoint holds (e : SQL Column Task) (r : Task) : bool :=
  match e with
  | Custom p => p r
  | gte c v => value_leb v (cell c r)
  | lte c v => value_leb (cell c r) v
  | eq c v => bool_decide (cell c r = v)
  | And l => forallb (fun e' => holds e' r) l
  | Or l => existsb (fun e' => holds e' r) l
  end.

(** [.where(w)]: no condition accepts every row. *)
Definition accepts (w : option (SQL Column Task)) (r : Task) : bool :=
  match w with
  | Some e => holds e r
  | None => true
  end.

Definition matching (w : option (SQL Column Task)) (rows : list Task)
  : list Task :=
  List.filter (accepts w) rows.

Definition before (o : OrderBy Column) (a b : Task) : bool :=
  match o with
  | asc (Col c) => value_leb (cell c a) (cell c b)
  | desc (Col c) => value_leb (cell c b) (cell c a)
  | _ => true
  end.

Fixpoint insert_row (le : Task → Task → bool) (x : Task) (l : list Task)
  : list Task :=
  match l with
  | [] => [x]
  | y :: l' => if le x y then x :: l else y :: insert_row le x l'
  end.

(** The rows in the order of the term.  Rows that tie keep their table
    order here; an engine is free to put them in any order, query by
    query. *)
Definition order_rows (o : OrderBy Column) (rows : list Task) : list Task :=
  foldr (insert_row (before o)) [] rows.

Record SelectQuery : Type := {
  q_limit : Z;
  q_offset : Z;
  q_where : option (SQL Column Task);
  q_orderBy : OrderBy Column
}.

Inductive Statement : Type :=
  | StBegin
  | StCommit
  | StSelect (q : SelectQuery)
  | StCount (w : option (SQL Column Task))
  | StGroup (distinct : bool) (w : option (SQL Column Task))
      (by_ : Column) (having_gt : Z).

(** A database: the rows of [tasks] and the statements it rejects. *)
Record Db : Type := {
  table : list Task;
  fault : Statement → option Error
}.

(** [select().from(tasks).limit(l).offset(o).where(w).orderBy(t)].  Which
    statements the engine refuses is the business of [fault].  The page cut
    is that of a limit of at least 1 and an offset of at least 0; what the
    query builder and the engine make of a smaller limit or a negative
    offset differs between them, and no property below relies on it. *)
Definition run_select (db : Db) (q : SelectQuery) : outcome (list Task) :=
  match fault db (StSelect q) with
  | Some e => Throw e
  | None =>
      Return (take (Z.to_nat (q_limit q))
                (drop (Z.to_nat (q_offset q))
                   (order_rows (q_orderBy q)
                      (matching (q_where q) (table db)))))
  end.

(** [select({count: count()}).from(tasks).where(w)]: one row. *)
Definition run_count (db : Db) (w : option (SQL Column Task))
  : outcome (list Z) :=
  match fault db (StCount w) with
  | Some e => Throw e
  | None => Return [Z.of_nat (length (matching w (table db)))]
  end.

(** The groups of [groupBy(c)] with their [count()], in order of first
    appearance. *)
Definition groups (c : Column) (rows : list Task) : list (Value * Z) :=
  (fun k =>
     (k, Z.of_nat (length (List.filter
                             (fun r => bool_decide (cell c r = k)) rows))))
    <$> remove_dups (cell c <$> rows).

Definition having (n : Z) (gs : list (Value * Z)) : list (Value * Z) :=
  List.filter (fun g => n <? g.2) gs.

(** [select({key, count}) ... groupBy(c).having(gt(count(), n))] *)
Definition run_group (db : Db) (w : option (SQL Column Task)) (c : Column)
    (n : Z) : outcome (list (Value * Z)) :=
  match fault db (StGroup false w c n) with
  | Some e => Throw e
  | None => Return (having n (groups c (matching w (table db))))
  end.

(** [selectDistinct({count}) ... groupBy(c).having(gt(count(c), n))] *)
Definition run_group_distinct (db : Db) (w : option (SQL Column Task))
    (c : Column) (n : Z) : outcome (list Z) :=
  match fault db (StGroup true w c n) with
  | Some e => Throw e
  | None =>
      Return (remove_dups (snd <$> having n (groups c (matching w (table db)))))
  end.

(** [db.transaction(f)]: the callback runs between begin and commit; a
    rejection of the callback rolls back and is passed on. *)
Definition transaction {A} (db : Db) (f : Db → outcome A) : outcome A :=
  match fault db StBegin with
  | Some e => Throw e
  | None =>
      a ← f db;
      match fault db StCommit with
      | Some e => Throw e
      | None => Return a
      end
  end.
End Storage.

Arguments SelectQuery : clear implicits.
Arguments Statement : clear implicits.
Arguments Db : clear implicits.

(** An order term is well defined when it orders by a column. *)
Definition well_defined {Column} (o : OrderBy Column) : bool :=
  match o with
  | asc (Col _) | desc (Col _) => true
  | _ => false
  end.

(** ** [getTasks] *)

Section GetTasks.
Context {Column Task : Type}.
Variable cell : Column → Task → Value.
(** [tasks], the table object of the schema. *)
Variable tasks : Schema.PgTable Column.
(** [filterColumn({column, value, isSelectable})] *)
Variable filterColumn : Column → string → bool → option (SQL Column Task).
(** [new Date(s)] as the timestamp the storage compares with. *)
Variable Date : string → Value.

(** [k in tasks] *)
Definition has_property (k : string) : bool :=
  bool_decide (is_Some (Schema.props tasks !! k)).

(** [tasks[k]] *)
Definition property (k : string) : Operand Column :=
  match Schema.props tasks !! k with
  | Some (Some c) => Col c
  | Some None => Other
  | None => Undefined
  end.

Definition offset (input : GetTasksSchema) : Z :=
  (page input - 1) * per_page input.

(** [input.sort?.split(".").filter(Boolean) ?? ["createdAt", "desc"]] *)
Definition sort_parts (input : GetTasksSchema) : list string :=
  match sort input with
  | Some s => filter_Boolean (split_dot s)
  | None => ["createdAt"; "desc"]
  end.

Definition column (input : GetTasksSchema) : option string :=
  sort_parts input !! 0%nat.

Definition order (input : GetTasksSchema) : option string :=
  sort_parts input !! 1%nat.

Definition fromDate (input : GetTasksSchema) : option Value :=
  if truthy (from input) then Date <$> from input else None.

Definition toDate (input : GetTasksSchema) : option Value :=
  if truthy (to input) then Date <$> to input else None.

Definition expressions (input : GetTasksSchema)
  : list (option (SQL Column Task)) :=
  [ if truthy (title input)
    then v ← title input; filterColumn (Schema.title tasks) v false
    else None;
    if truthy (status input)
    then v ← status input; filterColumn (Schema.status tasks) v true
    else None;
    if truthy (priority input)
    then v ← priority input; filterColumn (Schema.priority tasks) v true
    else None;
    gte (Schema.createdAt tasks) <$> fromDate input;
    lte (Schema.createdAt tasks) <$> toDate input ].

Definition where_ (input : GetTasksSchema) : option (SQL Column Task) :=
  if negb (truthy (operator input)) || bool_decide (operator input = Some "and")
  then drizzle.and (expressions input)
  else drizzle.or (expressions input).

Definition orderBy (input : GetTasksSchema) : OrderBy Column :=
  match column input with
  | Some c =>
      if truthy (column input) && has_property c
      then if bool_decide (order input = Some "asc")
           then asc (property c)
           else desc (property c)
      else desc (Col (Schema.id tasks))
  | None => desc (Col (Schema.id tasks))
  end.

(** The row query
    [select().from(tasks).limit(..).offset(..).where(..).orderBy(..)]. *)
Definition rows_query (input : GetTasksSchema) : SelectQuery Column Task :=
  {| q_limit := per_page input;
     q_offset := offset input;
     q_where := where_ input;
     q_orderBy := orderBy input |}.

(** [db.transaction(async (tx) => ...)], the awaited fetch of the rows and
    of their total. *)
Definition fetch (db : Db Column Task) (input : GetTasksSchema)
  : outcome (list Task * Z) :=
  transaction db (fun tx =>
    data ← run_select cell tx (rows_query input);
    total ← (res ← run_count cell tx (where_ input);
             mret (default 0 (head res)));
    mret (data, total)).

(** The storage accepts every statement of the fetch. *)
Definition no_fault (db : Db Column Task) (input : GetTasksSchema) : Prop :=
  fault db StBegin = None ∧
  fault db (StSelect (rows_query input)) = None ∧
  fault db (StCount (where_ input)) = None ∧
  fault db StCommit = None.

Definition getTasks (db : Db Column Task) (input : GetTasksSchema)
  : outcome (Result Task) :=
  (* noStore() marks the request as dynamic; it reads no storage. *)
  try_catch
    ('(data, total) ← fetch db input;
     let pageCount := Math_ceil_div total (per_page input) in
     mret {| data := data; pageCount := pageCount |})
    (fun err => mret {| data := []; pageCount := Num 0 |}).
End GetTasks.

(** ** The tag cache ([unstable_cache] of next/cache) *)

(** What an aggregate resolves to: a number or a record of numbers. *)
Inductive Json : Type :=
  | JNum (n : Z)
  | JObj (m : gmap string Z).

Record CacheOptions : Type := {
  revalidate : Z;
  tags : list string
}.

Record CacheEntry : Type := {
  entry_value : Json;
  expiresAt : Z;
  entry_tags : list string
}.

Abbreviation Store := (gmap (list string) CacheEntry).

(** [cache(cb, keyParts, options)()] at time [now]: an entry that has not
    expired is served; otherwise the callback runs and its result is
    stored with the options' lifetime and tags. *)
Definition lookup_fresh (keyParts : list string) (now : Z) (store : Store)
  : option Json :=
  e ← store !! keyParts;
  if now <? expiresAt e then Some (entry_value e) else None.

Definition cache (cb : outcome Json) (keyParts : list string)
    (options : CacheOptions) (now : Z) (store : Store)
  : outcome (Json * Store) :=
  match lookup_fresh keyParts now store with
  | Some v => mret (v, store)
  | None =>
      v ← cb;
      mret (v, <[keyParts := {| entry_value := v;
                                expiresAt := now + revalidate options;
                                entry_tags := tags options |}]> store)
  end.

(** [revalidateTag(tag)], the signal of a write path: every entry that
    carries the tag is dropped. *)
Definition revalidateTag (tag : string) (store : Store) : Store :=
  filter (fun kv => tag ∉ entry_tags kv.2) store.

(** ** The aggregate counters *)

Section Aggregates.
Context {Column Task : Type}.
Variable cell : Column → Task → Value.
Variable tasks : Schema.PgTable Column.

Definition getTaskCountByStatus (db : Db Column Task) (status : string)
    (now : Z) (store : Store) : outcome (Json * Store) :=
  cache
    (try_catch
       (res ← run_group_distinct cell db
                (Some (eq (Schema.status tasks) (VText status)))
                (Schema.status tasks) 0;
        mret (JNum (default 0 (head res))))
       (fun err => mret (JNum 0)))
    ["task-status-" +:+ status]
    {| revalidate := 900;
       tags := ["task-count"; "task-status-" +:+ status] |}
    now store.

Definition getTaskCountByPriority (db : Db Column Task) (priority : string)
    (now : Z) (store : Store) : outcome (Json * Store) :=
  cache
    (try_catch
       (res ← run_group_distinct cell db
                (Some (eq (Schema.priority tasks) (VText priority)))
                (Schema.priority tasks) 0;
        mret (JNum (default 0 (head res))))
       (fun err => mret (JNum 0)))
    ["task-priority-" +:+ priority]
    {| revalidate := 900;
       tags := ["task-count"; "task-priority-" +:+ priority] |}
    now store.

(** [res.reduce((acc, {key, count}) => { acc[key] = count; return acc }, {})] *)
Definition reduce_counts (res : list (Value * Z)) : gmap string Z :=
  foldl (fun acc row => <[key_of row.1 := row.2]> acc) ∅ res.

Definition getTaskStatusCounts (db : Db Column Task)
    (now : Z) (store : Store) : outcome (Json * Store) :=
  cache
    (try_catch
       (res ← run_group cell db None (Schema.status tasks) 0;
        mret (JObj (reduce_counts res)))
       (fun err => mret (JObj ∅)))
    ["task-status-counts"]
    {| revalidate := 900; tags := ["task-count"; "task-status-counts"] |}
    now store.

Definition getTaskPriorityCounts (db : Db Column Task)
    (now : Z) (store : Store) : outcome (Json * Store) :=
  cache
    (try_catch
       (res ← run_group cell db None (Schema.priority tasks) 0;
        mret (JObj (reduce_counts res)))
       (fun err => mret (JObj ∅)))
    ["task-priority-counts"]
    {| revalidate := 900; tags := ["task-count"; "task-priority-counts"] |}
    now store.

(** The four operations under one name, to speak of all of them at once. *)
Inductive Aggregate : Type :=
  | CountByStatus (status : string)
  | CountByPriority (priority : string)
  | StatusCounts
  | PriorityCounts.

Definition run (a : Aggregate) (db : Db Column Task) (now : Z) (store : Store)
  : outcome (Json * Store) :=
  match a with
  | CountByStatus s => getTaskCountByStatus db s now store
  | CountByPriority p => getTaskCountByPriority db p now store
  | StatusCounts => getTaskStatusCounts db now store
  | PriorityCounts => getTaskPriorityCounts db now store
  end.

(** The statement an operation sends to the storage. *)
Definition statement (a : Aggregate) : Statement Column Task :=
  match a with
  | CountByStatus s =>
      StGroup true (Some (eq (Schema.status tasks) (VText s)))
        (Schema.status tasks) 0
  | CountByPriority p =>
      StGroup true (Some (eq (Schema.priority tasks) (VText p)))
        (Schema.priority tasks) 0
  | StatusCounts => StGroup false None (Schema.status tasks) 0
  | PriorityCounts => StGroup false None (Schema.priority tasks) 0
  end.

(** The value computed on a cache miss when the storage answers. *)
Definition computed (a : Aggregate) (db : Db Column Task) : Json :=
  match a with
  | CountByStatus s =>
      JNum (default 0 (head (remove_dups (snd <$> having 0
        (groups cell (Schema.status tasks)
           (matching cell (Some (eq (Schema.status tasks) (VText s)))
              (table db)))))))
  | CountByPriority p =>
      JNum (default 0 (head (remove_dups (snd <$> having 0
        (groups cell (Schema.priority tasks)
           (matching cell (Some (eq (Schema.priority tasks) (VText p)))
              (table db)))))))
  | StatusCounts =>
      JObj (reduce_counts (having 0
        (groups cell (Schema.status tasks) (matching cell None (table db)))))
  | PriorityCounts =>
      JObj (reduce_counts (having 0
        (groups cell (Schema.priority tasks) (matching cell None (table db)))))
  end.
End Aggregates.

(** The key parts under which an operation caches, and the tag of its own
    beside the shared one. *)
Definition entry_key (a : Aggregate) : list string :=
  match a with
  | CountByStatus s => ["task-status-" +:+ s]
  | CountByPriority p => ["task-priority-" +:+ p]
  | StatusCounts => ["task-status-counts"]
  | PriorityCounts => ["task-priority-counts"]
  end.

Definition own_tag (a : Aggregate) : string :=
  match a with
  | CountByStatus s => "task-status-" +:+ s
  | CountByPriority p => "task-priority-" +:+ p
  | StatusCounts => "task-status-counts"
  | PriorityCounts => "task-priority-counts"
  end.

(** What an operation resolves to when the storage fails. *)
Definition degraded (a : Aggregate) : Json :=
  match a with
  | CountByStatus _ | CountByPriority _ => JNum 0
  | StatusCounts | PriorityCounts => JObj ∅
  end.

(** No scalar count is taken for the word "counts", which would share the
    key of a grouped count. *)
Definition plain (a : Aggregate) : Prop :=
  a ≠ CountByStatus "counts" ∧ a ≠ CountByPriority "counts".

(** ** A concrete schema and table, for running the definitions *)

Module Demo.
Inductive Column : Type := c_id | c_title | c_status | c_priority | c_createdAt.

Record Task : Type := {
  t_id : string;
  t_title : string;
  t_status : string;
  t_priority : string;
  t_createdAt : Z
}.

Definition cell (c : Column) (r : Task) : Value :=
  match c with
  | c_id => VText (t_id r)
  | c_title => VText (t_title r)
  | c_status => VText (t_status r)
  | c_priority => VText (t_priority r)
  | c_createdAt => VTime (t_createdAt r)
  end.

(** The table object: its five columns and, as every object that is an
    instance of a class, the members of [Object.prototype]. *)
Definition tasks : Schema.PgTable Column :=
  {| Schema.id := c_id; Schema.title := c_title; Schema.status := c_status;
     Schema.priority := c_priority; Schema.createdAt := c_createdAt;
     Schema.others :=
       {[ "constructor" := None; "toString" := None; "valueOf" := None;
          "hasOwnProperty" := None ]} |}.

(** A stand-in for [filterColumn]: equality with the given text. *)
Definition filterColumn (c : Column) (v : string) (isSelectable : bool)
  : option (SQL Column Task) :=
  Some (eq c (VText v)).

Definition Date (s : string) : Value := VTime (Z.of_nat (String.length s)).

Definition healthy (rows : list Task) : Db Column Task :=
  {| table := rows; fault := fun _ => None |}.

Definition broken (rows : list Task) : Db Column Task :=
  {| table := rows; fault := fun _ => Some (StorageError "connection lost") |}.

Definition request : GetTasksSchema :=
  {| page := 1; per_page := 10; sort := None; title := None; status := None;
     priority := None; from := None; to := None; operator := None |}.

Definition t1 : Task :=
  {| t_id := "a"; t_title := "first"; t_status := "todo";
     t_priority := "low"; t_createdAt := 20 |}.
Definition t2 : Task :=
  {| t_id := "b"; t_title := "second"; t_status := "done";
     t_priority := "high"; t_createdAt := 10 |}.
Definition t3 : Task :=
  {| t_id := "c"; t_title := "third"; t_status := "done";
     t_priority := "low"; t_createdAt := 30 |}.

(** Rows created at the same time. *)
Definition u1 : Task :=
  {| t_id := "a"; t_title := "one"; t_status := "todo";
     t_priority := "low"; t_createdAt := 5 |}.
Definition u2 : Task :=
  {| t_id := "b"; t_title := "two"; t_status := "todo";
     t_priority := "low"; t_createdAt := 5 |}.

(** [?status=done&priority=low&operator=xor] *)
Definition xor_request : GetTasksSchema :=
  {| page := 1; per_page := 10; sort := None; title := None;
     status := Some "done"; priority := Some "low"; from := None; to := None;
     operator := Some "xor" |}.

(** [?sort=nosuch.asc] *)
Definition nosuch_request : GetTasksSchema :=
  {| page := 1; per_page := 10; sort := Some "nosuch.asc"; title := None;
     status := None; priority := None; from := None; to := None;
     operator := None |}.

(** [?sort=toString.asc] *)
Definition toString_request : GetTasksSchema :=
  {| page := 1; per_page := 10; sort := Some "toString.asc"; title := None;
     status := None; priority := None; from := None; to := None;
     operator := None |}.

(** [?page=3&per_page=2] *)
Definition page3_request : GetTasksSchema :=
  {| page := 3; per_page := 2; sort := None; title := None;
     status := None; priority := None; from := None; to := None;
     operator := None |}.
End Demo.


(** ** Notions the further properties are stated with *)

(** [parts.join(".")], which undoes [split(".")]. *)
Definition join_dot (parts : list string) : string := String.concat "." parts.

(** The string has no dot in it. *)
Fixpoint dotless (s : string) : bool :=
  match s with
  | EmptyString => true
  | String c s' => negb (Ascii.eqb c "."%char) && dotless s'
  end.

(** The same request for another page. *)
Definition with_page (input : GetTasksSchema) (p : Z) : GetTasksSchema :=
  {| page := p; per_page := per_page input; sort := sort input;
     title := title input; status := status input;
     priority := priority input; from := from input; to := to input;
     operator := operator input |}.

(** The same request under another combinator. *)
Definition with_operator (input : GetTasksSchema) (op : option string)
  : GetTasksSchema :=
  {| page := page input; per_page := per_page input; sort := sort input;
     title := title input; status := status input;
     priority := priority input; from := from input; to := to input;
     operator := op |}.

(** The rows a call resolved to. *)
Definition rows_of {Task} (o : outcome (Result Task)) : list Task :=
  match o with
  | Return r => data r
  | Throw _ => []
  end.

Section Counting.
Context {Column Task : Type}.
Variable cell : Column → Task → Value.
Variable tasks : Schema.PgTable Column.

(** The number of rows that hold the value [v] in the column [c]. *)
Definition count_rows (c : Column) (v : Value) (rows : list Task) : Z :=
  Z.of_nat (length (List.filter (fun r => bool_decide (cell c r = v)) rows)).

(** What a callback resolves to against a storage: the computed value, or
    the degraded one when the storage rejects the statement. *)
Definition recomputed (a : Aggregate) (db : Db Column Task) : Json :=
  match fault db (statement tasks a) with
  | Some _ => degraded a
  | None => computed cell tasks a db
  end.

(** The order by the column [c] is determined on the rows: any two rows
    are comparable in it and no two rows tie. *)
Definition determined (c : Column) (rows : list Task) : Prop :=
  (∀ r r', r ∈ rows → r' ∈ rows →
           value_leb (cell c r) (cell c r') = true ∨
           value_leb (cell c r') (cell c r) = true) ∧
  (∀ r r', r ∈ rows → r' ∈ rows → cell c r = cell c r' → r = r').

(** The row [a] may come before the row [b] under the order term. *)
Definition in_order (o : OrderBy Column) (a b : Task) : Prop :=
  before cell o a b = true.

(** The column holds text in every row. *)
Definition textual (c : Column) (rows : list Task) : Prop :=
  ∀ r, r ∈ rows → ∃ s, cell c r = VText s.
End Counting.

(** Further requests over the concrete table. *)
Module Demo2.
(** [?sort=title.asc] *)
Definition title_request : GetTasksSchema :=
  {| page := 1; per_page := 10; sort := Some "title.asc"; title := None;
     status := None; priority := None; from := None; to := None;
     operator := None |}.

(** [?from=2024-01-01T00:00], a date that [Demo.Date] reads as time 16. *)
Definition since_request : GetTasksSchema :=
  {| page := 1; per_page := 10; sort := None; title := None;
     status := None; priority := None; from := Some "2024-01-01T00:00";
     to := None; operator := Some "and" |}.

(** [?status=done] *)
Definition done_request : GetTasksSchema :=
  {| page := 1; per_page := 10; sort := None; title := None;
     status := Some "done"; priority := None; from := None; to := None;
     operator := Some "or" |}.
End Demo2.

(** * Properties *)

(** ** Arithmetic of the page count *)

Lemma Qceiling_div (a b : Z) :
  Qceiling (inject_Z a / inject_Z b)%Q = - (- a / b).
Proof.
  unfold Qceiling. f_equal.
  rewrite Zdiv_Qdiv. apply Qfloor_comp.
  rewrite inject_Z_opp. unfold Qdiv. ring.
Qed.

Lemma Math_ceil_div_pos (a b : Z) :
  1 ≤ b → Math_ceil_div a b = Num (- (- a / b)).
Proof.
  intros Hb. unfold Math_ceil_div.
  destruct (Z.eqb_spec b 0) as [->|_]; [lia|].
  by rewrite Qceiling_div.
Qed.

Lemma ceil_div_bounds (a b : Z) :
  1 ≤ b → (- (- a / b) - 1) * b < a ≤ - (- a / b) * b.
Proof.
  intros Hb.
  pose proof (Z.div_mod (- a) b ltac:(lia)) as Hdm.
  pose proof (Z.mod_pos_bound (- a) b ltac:(lia)) as Hm.
  nia.
Qed.

(** ** The table object *)

Section TableFacts.
Context {Column : Type}.
Variable tasks : Schema.PgTable Column.

Lemma props_id : Schema.props tasks !! "id" = Some (Some (Schema.id tasks)).
Proof. unfold Schema.props. by rewrite lookup_insert_eq. Qed.

Lemma props_createdAt :
  Schema.props tasks !! "createdAt" = Some (Some (Schema.createdAt tasks)).
Proof.
  unfold Schema.props.
  do 4 (rewrite lookup_insert_ne; [|done]).
  by rewrite lookup_insert_eq.
Qed.

Lemma has_property_spec (k : string) :
  has_property tasks k = true ↔ is_Some (Schema.props tasks !! k).
Proof. unfold has_property. apply bool_decide_eq_true. Qed.

Lemma has_property_None (k : string) :
  has_property tasks k = false ↔ Schema.props tasks !! k = None.
Proof.
  unfold has_property. rewrite bool_decide_eq_false.
  by rewrite eq_None_not_Some.
Qed.

(** A property read that follows the [in] check never gives [undefined]. *)
Lemma property_defined (k : string) :
  has_property tasks k = true → property tasks k ≠ Undefined.
Proof.
  intros [c Hc]%has_property_spec. unfold property. rewrite Hc.
  by destruct c.
Qed.

Lemma property_column (k : string) (c : Column) :
  Schema.props tasks !! k = Some (Some c) → property tasks k = Col c.
Proof. intros H. unfold property. by rewrite H. Qed.
End TableFacts.

(** ** Storage: ordering keeps the rows *)

Section StorageFacts.
Context {Column Task : Type}.
Variable cell : Column → Task → Value.

Lemma length_insert_row (le : Task → Task → bool) (x : Task) (l : list Task) :
  length (insert_row le x l) = S (length l).
Proof.
  induction l as [|y l IH]; [done|].
  cbn. destruct (le x y); cbn; by rewrite ?IH.
Qed.

Lemma length_order_rows (o : OrderBy Column) (rows : list Task) :
  length (order_rows cell o rows) = length rows.
Proof.
  unfold order_rows.
  induction rows as [|r rows IH]; [done|].
  cbn. by rewrite length_insert_row, IH.
Qed.

Lemma insert_row_Permutation (le : Task → Task → bool) (x : Task)
    (l : list Task) :
  insert_row le x l ≡ₚ x :: l.
Proof.
  induction l as [|y l IH]; [done|].
  cbn. destruct (le x y); [done|].
  rewrite IH. apply Permutation_swap.
Qed.

(** Ordering rearranges the rows and loses none. *)
Lemma order_rows_Permutation (o : OrderBy Column) (rows : list Task) :
  order_rows cell o rows ≡ₚ rows.
Proof.
  unfold order_rows.
  induction rows as [|r rows IH]; [done|].
  cbn. by rewrite insert_row_Permutation, IH.
Qed.
End StorageFacts.

(** ** [getTasks]: the fetch and its failure *)

Section FetchFacts.
Context {Column Task : Type}.
Variable cell : Column → Task → Value.
Variable tasks : Schema.PgTable Column.
Variable filterColumn : Column → string → bool → option (SQL Column Task).
Variable Date : string → Value.

Local Abbreviation fetch := (fetch cell tasks filterColumn Date).
Local Abbreviation getTasks := (getTasks cell tasks filterColumn Date).
Local Abbreviation no_fault := (no_fault tasks filterColumn Date).
Local Abbreviation where_ := (where_ tasks filterColumn Date).
Local Abbreviation rows_query := (rows_query tasks filterColumn Date).

(** The rows of the requested page and the total, as the storage computes
    them. *)
Lemma no_fault_dec (db : Db Column Task) (input : GetTasksSchema) :
  no_fault db input ∨ ¬ no_fault db input.
Proof.
  unfold no_fault.
  destruct (fault db StBegin); [right; by intros (? & _)|].
  destruct (fault db (StSelect _)); [right; by intros (_ & ? & _)|].
  destruct (fault db (StCount _)); [right; by intros (_ & _ & ? & _)|].
  destruct (fault db StCommit); [right; by intros (_ & _ & _ & ?)|].
  by left.
Qed.

Lemma fetch_no_fault (db : Db Column Task) (input : GetTasksSchema) :
  no_fault db input →
  fetch db input =
    Return (take (Z.to_nat (per_page input))
              (drop (Z.to_nat (offset input))
                 (order_rows cell (orderBy tasks input)
                    (matching cell (where_ input) (table db)))),
            Z.of_nat (length (matching cell (where_ input) (table db)))).
Proof.
  intros (Hb & Hs & Hc & Hk).
  unfold fetch, transaction, run_select, run_count.
  rewrite Hb. cbn. rewrite Hs. cbn. rewrite Hc. cbn. by rewrite Hk.
Qed.

Lemma fetch_fault (db : Db Column Task) (input : GetTasksSchema) :
  ¬ no_fault db input → throws (fetch db input).
Proof.
  intros Hn.
  unfold fetch, transaction, run_select, run_count, throws.
  destruct (fault db StBegin) eqn:Hb; [by eexists|].
  cbn. destruct (fault db (StSelect _)) eqn:Hs; [by eexists|].
  cbn. destruct (fault db (StCount _)) eqn:Hc; [by eexists|].
  cbn. destruct (fault db StCommit) eqn:Hk; [by eexists|].
  destruct Hn. by repeat split.
Qed.

Lemma getTasks_no_fault (db : Db Column Task) (input : GetTasksSchema) :
  no_fault db input →
  getTasks db input =
    Return {| data := take (Z.to_nat (per_page input))
                        (drop (Z.to_nat (offset input))
                           (order_rows cell (orderBy tasks input)
                              (matching cell (where_ input) (table db))));
              pageCount :=
                Math_ceil_div
                  (Z.of_nat (length (matching cell (where_ input) (table db))))
                  (per_page input) |}.
Proof.
  intros H. unfold getTasks. by rewrite (fetch_no_fault _ _ H).
Qed.

Lemma getTasks_fault (db : Db Column Task) (input : GetTasksSchema) :
  throws (fetch db input) →
  getTasks db input = Return {| data := []; pageCount := Num 0 |}.
Proof. intros [e He]. unfold getTasks. by rewrite He. Qed.

(** C1. [getTasks] never rejects: whatever the request and whatever the
    storage does, the call resolves to a result, and when the storage
    refuses a statement of the fetch the error is caught and the result is
    the empty one, no rows and page count 0. *)
Theorem getTasks_never_throws (db : Db Column Task) (input : GetTasksSchema) :
  ∃ r, getTasks db input = Return r ∧
       (¬ no_fault db input → r = {| data := []; pageCount := Num 0 |}).
Proof.
  destruct (fetch db input) as [[rows total]|e] eqn:Hf.
  - eexists. split.
    + unfold getTasks. rewrite Hf. reflexivity.
    + intros [e He]%fetch_fault. congruence.
  - eexists. split; [|done].
    apply getTasks_fault. by exists e.
Qed.

(** C2. For a request with page ≥ 1 and perPage ≥ 1 that the storage
    serves, the offset of the row query is (page − 1) × perPage, the rows
    are the page cut at that offset, and pageCount is the ceiling of
    total / perPage, total being the number of matching rows: the least
    integer whose multiple of perPage reaches total, and 0 when total is
    0. *)
Theorem getTasks_pagination (db : Db Column Task) (input : GetTasksSchema) :
  1 ≤ page input → 1 ≤ per_page input → no_fault db input →
  let total := Z.of_nat (length (matching cell (where_ input) (table db))) in
  q_offset (rows_query input) = (page input - 1) * per_page input ∧
  0 ≤ q_offset (rows_query input) ∧
  ∃ pc, getTasks db input =
          Return {| data := take (Z.to_nat (per_page input))
                              (drop (Z.to_nat ((page input - 1) * per_page input))
                                 (order_rows cell (orderBy tasks input)
                                    (matching cell (where_ input) (table db))));
                    pageCount := Num pc |} ∧
        (pc - 1) * per_page input < total ≤ pc * per_page input ∧
        (total = 0 → pc = 0).
Proof.
  intros Hp Hpp Hnf total.
  split; [done|]. split; [cbn; unfold offset; nia|].
  exists (- (- total / per_page input)).
  split; [|split].
  - rewrite (getTasks_no_fault _ _ Hnf).
    by rewrite Math_ceil_div_pos.
  - by apply ceil_div_bounds.
  - intros ->. by rewrite Z.opp_0, Z.div_0_l by lia.
Qed.

(** C9, amended.  A served request whose page lies past the last one
    (offset ≥ total, total > 0, perPage ≥ 1) resolves to no rows and a page
    count that is still the ceiling of total / perPage, hence positive.
    The pair (no rows, page count 0) comes from a storage failure or from a
    request that matches no row at all. *)
Theorem getTasks_past_last_page (db : Db Column Task) (input : GetTasksSchema) :
  1 ≤ per_page input →
  let total := Z.of_nat (length (matching cell (where_ input) (table db))) in
  (no_fault db input → 0 < total → total ≤ offset input →
   ∃ pc, getTasks db input = Return {| data := []; pageCount := Num pc |} ∧
         0 < pc ∧
         (pc - 1) * per_page input < total ≤ pc * per_page input) ∧
  (getTasks db input = Return {| data := []; pageCount := Num 0 |} →
   ¬ no_fault db input ∨ total = 0).
Proof.
  intros Hpp total. split.
  - intros Hnf Htot Hoff.
    exists (- (- total / per_page input)).
    pose proof (ceil_div_bounds total (per_page input) Hpp) as Hb.
    split; [|split; [nia|done]].
    rewrite (getTasks_no_fault _ _ Hnf), Math_ceil_div_pos by done.
    do 2 f_equal.
    rewrite drop_ge; [by rewrite take_nil|].
    assert (length (order_rows cell (orderBy tasks input)
                      (matching cell (where_ input) (table db)))
            = length (matching cell (where_ input) (table db))) as ->
      by apply length_order_rows.
    subst total. lia.
  - intros Hres.
    destruct (no_fault_dec db input) as [Hnf|Hf]; [|by left].
    right.
    rewrite (getTasks_no_fault _ _ Hnf), Math_ceil_div_pos in Hres by done.
    pose proof (ceil_div_bounds total (per_page input) Hpp) as Hb.
    assert (- (- total / per_page input) = 0) as Hz by (subst total; congruence).
    rewrite Hz in Hb. subst total. lia.
Qed.
End FetchFacts.

(** ** The query composer: combinator and sort resolution *)

Section ComposerFacts.
Context {Column Task : Type}.
Variable cell : Column → Task → Value.
Variable tasks : Schema.PgTable Column.
Variable filterColumn : Column → string → bool → option (SQL Column Task).
Variable Date : string → Value.

Local Abbreviation where_ := (where_ tasks filterColumn Date).
Local Abbreviation expressions := (expressions tasks filterColumn Date).

(** [and(...)] accepts the rows that every present condition accepts; with
    no condition present it filters nothing. *)
Lemma accepts_and (cs : list (option (SQL Column Task))) (r : Task) :
  accepts cell (drizzle.and cs) r
  = forallb (fun e => holds cell e r) (present cs).
Proof.
  unfold drizzle.and.
  destruct (present cs) as [|c [|c' l]]; cbn; [done| |done].
  by rewrite andb_true_r.
Qed.

(** [or(...)] accepts the rows that some present condition accepts; with
    no condition present it filters nothing. *)
Lemma accepts_or (cs : list (option (SQL Column Task))) (r : Task) :
  accepts cell (drizzle.or cs) r
  = match present cs with
    | [] => true
    | es => existsb (fun e => holds cell e r) es
    end.
Proof.
  unfold drizzle.or.
  destruct (present cs) as [|c [|c' l]]; cbn; [done| |done].
  by rewrite orb_false_r.
Qed.

(** C3, amended.  The combinator "and" produces the AND of the present
    predicates and "or" produces their OR (no filter when none is
    present).  AND is taken when the combinator is unset, empty or "and";
    every other string, "or" or not, takes OR. *)
Theorem where_combinator (input : GetTasksSchema) :
  where_ input
  = (if decide (operator input ∈ [None; Some ""; Some "and"])
     then drizzle.and (expressions input)
     else drizzle.or (expressions input)) ∧
  ∀ r : Task,
    accepts cell (where_ input) r
    = if decide (operator input ∈ [None; Some ""; Some "and"])
      then forallb (fun e => holds cell e r) (present (expressions input))
      else match present (expressions input) with
           | [] => true
           | es => existsb (fun e => holds cell e r) es
           end.
Proof.
  assert (where_ input
          = if decide (operator input ∈ [None; Some ""; Some "and"])
            then drizzle.and (expressions input)
            else drizzle.or (expressions input)) as Hw.
  { unfold where_, truthy.
    destruct (decide _) as [Hin|Hout].
    - repeat (apply elem_of_cons in Hin as [->|Hin]); [done..|].
      by apply elem_of_nil in Hin.
    - destruct (operator input) as [s|] eqn:Hop; [|set_solver].
      destruct (String.eqb_spec s "") as [->|Hne]; [set_solver|].
      cbn. rewrite bool_decide_eq_false_2; [done|].
      intros [= ->]. set_solver. }
  split; [done|].
  intros r. rewrite Hw.
  destruct (decide _); [apply accepts_and | apply accepts_or].
Qed.

Lemma column_absent (input : GetTasksSchema) :
  sort input = None → column input = Some "createdAt" ∧ order input = Some "desc".
Proof. unfold column, order, sort_parts. by intros ->. Qed.

(** C4, amended.  When the sort string is absent the rows are ordered by
    creation time, descending, and by nothing else.  When the sort string
    has no column part, or its column part names no property of the table
    object, they are ordered by identifier, descending. *)
Theorem orderBy_fallback (input : GetTasksSchema) :
  (sort input = None →
   orderBy tasks input = desc (Col (Schema.createdAt tasks))) ∧
  (column input = None →
   orderBy tasks input = desc (Col (Schema.id tasks))) ∧
  (∀ k, column input = Some k → Schema.props tasks !! k = None →
   orderBy tasks input = desc (Col (Schema.id tasks))).
Proof.
  split; [|split].
  - intros [Hc Ho]%column_absent. unfold orderBy. rewrite Hc, Ho. cbn.
    assert (has_property tasks "createdAt" = true) as ->.
    { apply has_property_spec. rewrite props_createdAt. by eexists. }
    by rewrite (property_column _ _ _ (props_createdAt tasks)).
  - intros Hc. unfold orderBy. by rewrite Hc.
  - intros k Hc Hk. unfold orderBy. rewrite Hc.
    apply has_property_None in Hk. rewrite Hk.
    by rewrite andb_false_r.
Qed.

(** The property read of the order term follows the [in] check: the
    operand is never [undefined]. *)
Lemma orderBy_operand_defined (input : GetTasksSchema) :
  orderBy tasks input ≠ asc Undefined ∧ orderBy tasks input ≠ desc Undefined.
Proof.
  unfold orderBy.
  destruct (column input) as [k|]; [|done].
  destruct (truthy (Some k)); cbn; [|done].
  destruct (has_property tasks k) eqn:Hk; [|done].
  pose proof (property_defined _ _ Hk).
  destruct (bool_decide _); split; congruence.
Qed.

(** The order term is a column when the sort column names one. *)
Lemma orderBy_column (input : GetTasksSchema) (k : string) (c : Column) :
  column input = Some k → k ≠ "" → Schema.props tasks !! k = Some (Some c) →
  orderBy tasks input
  = if bool_decide (order input = Some "asc") then asc (Col c) else desc (Col c).
Proof.
  intros Hc Hk Hp. unfold orderBy. rewrite Hc. cbn.
  destruct (String.eqb_spec k "") as [->|_]; [done|]. cbn.
  assert (has_property tasks k = true) as ->.
  { apply has_property_spec. by eexists. }
  by rewrite (property_column _ _ _ Hp).
Qed.
End ComposerFacts.

(** ** The tag cache *)

Lemma cache_miss (cb : outcome Json) (k : list string) (o : CacheOptions)
    (now : Z) (store : Store) (v : Json) :
  lookup_fresh k now store = None → cb = Return v →
  cache cb k o now store
  = Return (v, <[k := {| entry_value := v;
                         expiresAt := now + revalidate o;
                         entry_tags := tags o |}]> store).
Proof. intros Hm ->. unfold cache. by rewrite Hm. Qed.

Lemma cache_hit (cb : outcome Json) (k : list string) (o : CacheOptions)
    (now : Z) (store : Store) (v : Json) :
  lookup_fresh k now store = Some v →
  cache cb k o now store = Return (v, store).
Proof. intros Hh. unfold cache. by rewrite Hh. Qed.

Lemma cache_returns (cb : outcome Json) (k : list string) (o : CacheOptions)
    (now : Z) (store : Store) :
  (∃ v, cb = Return v) → ∃ r, cache cb k o now store = Return r.
Proof.
  intros [v Hv].
  destruct (lookup_fresh k now store) as [w|] eqn:Hl.
  - eexists. by apply cache_hit.
  - eexists. by apply cache_miss.
Qed.

Lemma revalidateTag_lookup (tag : string) (store : Store) (k : list string) :
  (revalidateTag tag store) !! k
  = e ← store !! k; if decide (tag ∈ entry_tags e) then None else Some e.
Proof.
  unfold revalidateTag. rewrite map_lookup_filter.
  destruct (store !! k) as [e|]; [|done]. cbn.
  destruct (decide (tag ∈ entry_tags e)).
  - by rewrite option_guard_False by auto.
  - by rewrite option_guard_True.
Qed.

Lemma own_tag_inj (a b : Aggregate) :
  plain a → plain b → own_tag a = own_tag b → a = b.
Proof.
  intros [Ha1 Ha2] [Hb1 Hb2].
  destruct a, b; cbv [own_tag String.append]; intros [=]; subst; congruence.
Qed.

Lemma own_tag_not_shared (a : Aggregate) : own_tag a ≠ "task-count".
Proof. by destruct a. Qed.

Lemma entry_key_own_tag (a : Aggregate) : entry_key a = [own_tag a].
Proof. by destruct a. Qed.

(** ** Grouped counts *)

Section GroupFacts.
Context {Column Task : Type}.
Variable cell : Column → Task → Value.

Lemma elem_of_matching (w : option (SQL Column Task)) (rows : list Task)
    (r : Task) :
  r ∈ matching cell w rows ↔ r ∈ rows ∧ accepts cell w r = true.
Proof.
  unfold matching. rewrite !list_elem_of_In. apply List.filter_In.
Qed.

Lemma matching_nil (w : option (SQL Column Task)) (rows : list Task) :
  (∀ r, r ∈ rows → accepts cell w r = false) → matching cell w rows = [].
Proof.
  intros H. destruct (matching cell w rows) as [|r l] eqn:E; [done|].
  assert (r ∈ matching cell w rows) as [Hr Ha]%elem_of_matching
    by (rewrite E; left).
  rewrite (H r Hr) in Ha. done.
Qed.

(** Every group stands for a row: its key is the value of some row. *)
Lemma elem_of_groups (c : Column) (rows : list Task) (g : Value * Z) :
  g ∈ groups cell c rows → ∃ r, r ∈ rows ∧ cell c r = g.1.
Proof.
  unfold groups. intros (k & -> & Hk)%list_elem_of_fmap.
  apply elem_of_remove_dups, list_elem_of_fmap in Hk as (r & -> & Hr).
  by exists r.
Qed.

Lemma elem_of_having (n : Z) (gs : list (Value * Z)) (g : Value * Z) :
  g ∈ having n gs → g ∈ gs ∧ n < g.2.
Proof.
  unfold having. rewrite !list_elem_of_In, List.filter_In.
  intros [? ?%Z.ltb_lt]. done.
Qed.

Lemma reduce_counts_None (res : list (Value * Z)) (k : string) :
  (∀ g, g ∈ res → key_of g.1 ≠ k) → reduce_counts res !! k = None.
Proof.
  unfold reduce_counts.
  assert (∀ acc : gmap string Z,
            (∀ g, g ∈ res → key_of g.1 ≠ k) →
            foldl (fun acc row => <[key_of row.1 := row.2]> acc) acc res !! k
            = acc !! k) as Hgen.
  { induction res as [|g res IH]; intros acc Hk; [done|].
    cbn. rewrite IH by (intros; apply Hk; by right).
    apply lookup_insert_ne, Hk. by left. }
  intros Hk. by rewrite Hgen.
Qed.

Lemma reduce_counts_Some (res : list (Value * Z)) (k : string) (n : Z) :
  reduce_counts res !! k = Some n → ∃ g, g ∈ res ∧ key_of g.1 = k ∧ g.2 = n.
Proof.
  unfold reduce_counts.
  assert (∀ acc : gmap string Z,
            foldl (fun acc row => <[key_of row.1 := row.2]> acc) acc res !! k
            = Some n →
            acc !! k = Some n ∨ ∃ g, g ∈ res ∧ key_of g.1 = k ∧ g.2 = n)
    as Hgen.
  { induction res as [|g res IH]; intros acc Hk; [by left|].
    cbn in Hk. apply IH in Hk as [Hk|(g' & Hg' & Hkey & Hn)].
    - destruct (decide (key_of g.1 = k)) as [Heq|Hne].
      + rewrite <- Heq, lookup_insert_eq in Hk. injection Hk as Hk.
        right. exists g. split; [by left|done].
      + rewrite lookup_insert_ne in Hk by done. by left.
    - right. exists g'. split; [by right|done]. }
  intros Hk. apply Hgen in Hk as [Hk|Hk]; [|done].
  by rewrite lookup_empty in Hk.
Qed.

(** The counts of the record are positive. *)
Lemma grouped_counts_positive (w : option (SQL Column Task)) (c : Column)
    (rows : list Task) (k : string) (n : Z) :
  reduce_counts (having 0 (groups cell c (matching cell w rows))) !! k = Some n →
  0 < n.
Proof.
  intros (g & [_ Hg]%elem_of_having & _ & <-)%reduce_counts_Some. done.
Qed.

(** A key of the record of counts is the value of some counted row. *)
Lemma grouped_counts_None (w : option (SQL Column Task)) (c : Column)
    (rows : list Task) (k : string) :
  (∀ r, r ∈ rows → key_of (cell c r) ≠ k) →
  reduce_counts (having 0 (groups cell c (matching cell w rows))) !! k = None.
Proof.
  intros Hk. apply reduce_counts_None.
  intros g [Hg _]%elem_of_having.
  apply elem_of_groups in Hg as (r & [Hr _]%elem_of_matching & <-).
  by apply Hk.
Qed.

(** The scalar count of a value that no row has is taken over no group. *)
Lemma scalar_count_nil (c : Column) (rows : list Task) (v : string) :
  (∀ r, r ∈ rows → key_of (cell c r) ≠ v) →
  remove_dups
    (snd <$> having 0 (groups cell c (matching cell (Some (eq c (VText v))) rows)))
  = [].
Proof.
  intros Hk. rewrite matching_nil; [done|].
  intros r Hr. cbn. apply bool_decide_eq_false. intros Hc.
  apply (Hk r Hr). by rewrite Hc.
Qed.
End GroupFacts.

(** ** The aggregate counters *)

Section AggregateFacts.
Context {Column Task : Type}.
Variable cell : Column → Task → Value.
Variable tasks : Schema.PgTable Column.

Local Abbreviation run := (run cell tasks).
Local Abbreviation statement := (statement (Task := Task) tasks).
Local Abbreviation computed := (computed cell tasks).

(** Each operation is the cache around a callback that always resolves:
    to the computed value, or to the degraded one when the storage fails. *)
Lemma run_cache (a : Aggregate) (db : Db Column Task) (now : Z)
    (store : Store) :
  run a db now store
  = cache (Return (match fault db (statement a) with
                   | Some _ => degraded a
                   | None => computed a db
                   end))
      (entry_key a)
      {| revalidate := 900; tags := ["task-count"; own_tag a] |}
      now store.
Proof.
  destruct a; cbn;
    unfold getTaskCountByStatus, getTaskCountByPriority, getTaskStatusCounts,
      getTaskPriorityCounts, run_group_distinct, run_group;
    by destruct (fault db _).
Qed.

(** C5. No aggregate operation ever rejects: each resolves, whatever the
    storage does.  When the storage fails on its statement (the value not
    being served from the cache), the scalar counts resolve to 0 and the
    grouped counts to the empty record. *)
Theorem aggregates_never_throw (a : Aggregate) (db : Db Column Task)
    (now : Z) (store : Store) :
  ∃ v st, run a db now store = Return (v, st) ∧
          (lookup_fresh (entry_key a) now store = None →
           fault db (statement a) ≠ None →
           v = match a with
               | CountByStatus _ | CountByPriority _ => JNum 0
               | StatusCounts | PriorityCounts => JObj ∅
               end).
Proof.
  rewrite run_cache.
  destruct (lookup_fresh (entry_key a) now store) as [w|] eqn:Hl.
  - exists w, store. split; [by apply cache_hit|done].
  - eexists _, _. split; [by apply cache_miss|].
    intros _ Hf. destruct (fault db (statement a)); [by destruct a|done].
Qed.

(** C6, amended.  When the value is computed from the storage and not
    served from the cache, a dimension value that no row has is missing
    from the record of grouped counts (its key is absent, and no key at
    all is present with count 0), and its scalar count is 0; both for
    status and for priority. *)
Theorem zero_rows_absent (db : Db Column Task) (now : Z) (store : Store)
    (v : string) :
  let none_has c := ∀ r, r ∈ table db → key_of (cell c r) ≠ v in
  (none_has (Schema.status tasks) →
   (lookup_fresh ["task-status-counts"] now store = None →
    ∃ m st, getTaskStatusCounts cell tasks db now store = Return (JObj m, st) ∧
            m !! v = None ∧ ∀ k n, m !! k = Some n → 0 < n) ∧
   (lookup_fresh ["task-status-" +:+ v] now store = None →
    ∃ st, getTaskCountByStatus cell tasks db v now store
          = Return (JNum 0, st))) ∧
  (none_has (Schema.priority tasks) →
   (lookup_fresh ["task-priority-counts"] now store = None →
    ∃ m st, getTaskPriorityCounts cell tasks db now store
            = Return (JObj m, st) ∧
            m !! v = None ∧ ∀ k n, m !! k = Some n → 0 < n) ∧
   (lookup_fresh ["task-priority-" +:+ v] now store = None →
    ∃ st, getTaskCountByPriority cell tasks db v now store
          = Return (JNum 0, st))).
Proof.
  intros none_has. split; intros Hnone; split; intros Hl.
  - pose proof (run_cache StatusCounts db now store) as Hr. cbn in Hr.
    rewrite Hr. clear Hr.
    destruct (fault db _); (erewrite cache_miss; [|done..]);
      eexists _, _; (split; [done|]).
    + split; [done|]. intros k n Hk. by rewrite lookup_empty in Hk.
    + split; [by apply grouped_counts_None|].
      intros k n. apply grouped_counts_positive.
  - pose proof (run_cache (CountByStatus v) db now store) as Hr. cbn in Hr.
    rewrite Hr. clear Hr.
    destruct (fault db _); (erewrite cache_miss; [|done..]);
      eexists; [done|].
    cbn. by rewrite scalar_count_nil.
  - pose proof (run_cache PriorityCounts db now store) as Hr. cbn in Hr.
    rewrite Hr. clear Hr.
    destruct (fault db _); (erewrite cache_miss; [|done..]);
      eexists _, _; (split; [done|]).
    + split; [done|]. intros k n Hk. by rewrite lookup_empty in Hk.
    + split; [by apply grouped_counts_None|].
      intros k n. apply grouped_counts_positive.
  - pose proof (run_cache (CountByPriority v) db now store) as Hr. cbn in Hr.
    rewrite Hr. clear Hr.
    destruct (fault db _); (erewrite cache_miss; [|done..]);
      eexists; [done|].
    cbn. by rewrite scalar_count_nil.
Qed.
End AggregateFacts.

Section TagFacts.
Context {Column Task : Type}.
Variable cell : Column → Task → Value.
Variable tasks : Schema.PgTable Column.

(** C7, amended.  Every cache entry created by the four aggregate
    operations lives 900 seconds and carries two tags: the shared tag
    "task-count" and a tag of its own, "task-status-<value>" or
    "task-priority-<value>" for the scalar counts, "task-status-counts" or
    "task-priority-counts" for the grouped ones.  Hence a writer drops
    every aggregate with the shared tag, or one aggregate with its own
    tag, which leaves the entries of the other aggregates in place (no
    scalar count being taken for the word "counts"). *)
Theorem aggregate_entries_tagged (a : Aggregate) (db : Db Column Task)
    (now : Z) (store : Store) :
  lookup_fresh (entry_key a) now store = None →
  ∃ v st,
    run cell tasks a db now store = Return (v, st) ∧
    st !! entry_key a
    = Some {| entry_value := v;
              expiresAt := now + 900;
              entry_tags :=
                [ "task-count";
                  match a with
                  | CountByStatus s => "task-status-" +:+ s
                  | CountByPriority p => "task-priority-" +:+ p
                  | StatusCounts => "task-status-counts"
                  | PriorityCounts => "task-priority-counts"
                  end ] |} ∧
    (revalidateTag "task-count" st) !! entry_key a = None ∧
    (revalidateTag (own_tag a) st) !! entry_key a = None ∧
    ∀ b, plain a → plain b → b ≠ a →
         (revalidateTag (own_tag b) st) !! entry_key a = st !! entry_key a.
Proof.
  intros Hl. rewrite run_cache.
  erewrite cache_miss; [|done..].
  eexists _, _. split; [done|].
  rewrite !revalidateTag_lookup, !lookup_insert_eq. cbn.
  split; [by destruct a|].
  split; [rewrite decide_True; [done|set_solver]|].
  split; [rewrite decide_True; [done|set_solver]|].
  intros b Ha Hb Hne. rewrite revalidateTag_lookup, lookup_insert_eq. cbn.
  rewrite decide_False; [done|].
  intros [Hs|[Ho|Hn]%elem_of_cons]%elem_of_cons.
  - by apply own_tag_not_shared in Hs.
  - by apply Hne, own_tag_inj.
  - by apply elem_of_nil in Hn.
Qed.
End TagFacts.

(** ** The definitions at work on a concrete table *)

Module DemoFacts.
Import Demo.

Lemma healthy_no_fault (rows : list Task) (input : GetTasksSchema) :
  no_fault tasks filterColumn Date (healthy rows) input.
Proof. by repeat split. Qed.

Lemma broken_fault (rows : list Task) (input : GetTasksSchema) :
  ¬ no_fault tasks filterColumn Date (broken rows) input.
Proof. by intros [? _]. Qed.

Example getTasks_first_page :
  getTasks cell tasks filterColumn Date (healthy [t1; t2; t3]) request
  = Return {| data := [t3; t1; t2]; pageCount := Num 1 |}.
Proof. reflexivity. Qed.

Example getTasks_division_by_zero :
  ∃ rows,
    getTasks cell tasks filterColumn Date (healthy [t1; t2; t3])
      {| page := 1; per_page := 0; sort := None; title := None;
         status := None; priority := None; from := None; to := None;
         operator := None |}
    = Return {| data := rows; pageCount := Infinity |}.
Proof. by eexists. Qed.

Example status_counts :
  ∃ m st, getTaskStatusCounts cell tasks (healthy [t1; t2; t3]) 0 ∅
          = Return (JObj m, st) ∧
          m !! "todo" = Some 1 ∧ m !! "done" = Some 2 ∧ m !! "canceled" = None.
Proof. eexists _, _. split; [reflexivity|]. by vm_compute. Qed.

(** C3: with the unrecognized combinator "xor" the code takes OR, not AND:
    the row [t1], which is not done, is accepted although the AND of the
    two present predicates rejects it. *)
Lemma unrecognized_operator_takes_or :
  operator xor_request = Some "xor" ∧
  where_ tasks filterColumn Date xor_request
  = Some (Or [eq c_status (VText "done"); eq c_priority (VText "low")]) ∧
  where_ tasks filterColumn Date xor_request
  ≠ drizzle.and (expressions tasks filterColumn Date xor_request) ∧
  accepts cell (where_ tasks filterColumn Date xor_request) t1 = true ∧
  forallb (fun e => holds cell e t1)
    (present (expressions tasks filterColumn Date xor_request)) = false.
Proof. by repeat split. Qed.

(** C4: for the unknown column of [?sort=nosuch.asc] the rows come ordered
    by identifier, descending, and not by creation time: [t2], created at
    10, precedes [t1], created at 20.  With no sort string the order term
    is the creation time alone, and rows created at the same time are not
    put in descending order of identifier (here they stay in table
    order). *)
Lemma fallback_is_not_creation_time :
  (orderBy tasks nosuch_request = desc (Col c_id) ∧
   getTasks cell tasks filterColumn Date (healthy [t1; t2; t3]) nosuch_request
   = Return {| data := [t3; t2; t1]; pageCount := Num 1 |} ∧
   t_createdAt t2 < t_createdAt t1) ∧
  (orderBy tasks request = desc (Col c_createdAt) ∧
   getTasks cell tasks filterColumn Date (healthy [u1; u2]) request
   = Return {| data := [u1; u2]; pageCount := Num 1 |} ∧
   t_createdAt u1 = t_createdAt u2 ∧ String.ltb (t_id u1) (t_id u2) = true).
Proof. by repeat split. Qed.

(** C7: the entry that [getTaskCountByStatus("done")] creates carries the
    tags "task-count" and "task-status-done"; neither
    "aggregate-invalidation" nor "status:done" is among them, and
    invalidating these leaves the entry in place. *)
Lemma tags_are_not_the_claimed_ones :
  ∃ v st e,
    getTaskCountByStatus cell tasks (healthy [t1; t2; t3]) "done" 0 ∅
    = Return (v, st) ∧
    st !! ["task-status-done"] = Some e ∧
    entry_tags e = ["task-count"; "task-status-done"] ∧
    ("aggregate-invalidation" ∉ entry_tags e) ∧
    ("status:done" ∉ entry_tags e) ∧
    (revalidateTag "aggregate-invalidation" st) !! ["task-status-done"]
    = Some e ∧
    (revalidateTag "status:done" st) !! ["task-status-done"] = Some e.
Proof.
  eexists _, _, _. split; [reflexivity|].
  split; [by vm_compute|].
  split; [done|].
  split; [by repeat (apply not_elem_of_cons; split); try apply not_elem_of_nil|].
  split; [by repeat (apply not_elem_of_cons; split); try apply not_elem_of_nil|].
  split; by vm_compute.
Qed.

(** C6: a count served from the cache is the count of the rows there were
    when it was computed.  After the counts over three rows have been
    cached, the same calls over a table without rows, 899 seconds later,
    still resolve to 2 for "done" and to a record with the key "done". *)
Lemma stale_count_served :
  (∀ r, r ∈ table (healthy []) → key_of (cell c_status r) ≠ "done") ∧
  (∃ st,
     getTaskCountByStatus cell tasks (healthy [t1; t2; t3]) "done" 0 ∅
     = Return (JNum 2, st) ∧
     getTaskCountByStatus cell tasks (healthy []) "done" 899 st
     = Return (JNum 2, st)) ∧
  (∃ m st,
     getTaskStatusCounts cell tasks (healthy [t1; t2; t3]) 0 ∅
     = Return (JObj m, st) ∧
     getTaskStatusCounts cell tasks (healthy []) 899 st
     = Return (JObj m, st) ∧
     m !! "done" = Some 2).
Proof.
  split; [intros r Hr; by apply elem_of_nil in Hr|]. split.
  - eexists. split; [reflexivity|]. by vm_compute.
  - eexists _, _. split; [reflexivity|]. split; by vm_compute.
Qed.

(** C9: a served request over a table without rows resolves to no rows
    and page count 0, the pair of a storage failure, without any failure. *)
Lemma empty_pair_without_failure :
  no_fault tasks filterColumn Date (healthy []) request ∧
  getTasks cell tasks filterColumn Date (healthy []) request
  = Return {| data := []; pageCount := Num 0 |}.
Proof. split; [apply healthy_no_fault|reflexivity]. Qed.

(** C10: "toString" is a property of the table object, as of every
    object, so [?sort=toString.asc] passes the [in] check and the order
    term is built from a property that is no column of Task. *)
Lemma orderBy_inherited_property :
  column toString_request = Some "toString" ∧
  has_property tasks "toString" = true ∧
  orderBy tasks toString_request = asc Other ∧
  well_defined (orderBy tasks toString_request) = false.
Proof. by repeat split. Qed.

(** *** The theorems at concrete inputs *)

Lemma getTasks_never_throws_witness :
  ¬ no_fault tasks filterColumn Date (broken [t1; t2; t3]) request ∧
  getTasks cell tasks filterColumn Date (broken [t1; t2; t3]) request
  = Return {| data := []; pageCount := Num 0 |}.
Proof.
  assert (¬ no_fault tasks filterColumn Date (broken [t1; t2; t3]) request)
    as Hf by (intros [Hb _]; discriminate Hb).
  split; [exact Hf|].
  destruct (getTasks_never_throws cell tasks filterColumn Date
              (broken [t1; t2; t3]) request) as (r & Hr & He).
  rewrite Hr. f_equal. exact (He Hf).
Defined.

Lemma getTasks_pagination_witness :
  1 ≤ page page3_request ∧ 1 ≤ per_page page3_request ∧
  no_fault tasks filterColumn Date (healthy [t1; t2; t3]) page3_request ∧
  q_offset (rows_query tasks filterColumn Date page3_request) = 4 ∧
  getTasks cell tasks filterColumn Date (healthy [t1; t2; t3]) page3_request
  = Return {| data := []; pageCount := Num 2 |}.
Proof.
  assert (1 ≤ page page3_request) as Hp by (cbn; lia).
  assert (1 ≤ per_page page3_request) as Hpp by (cbn; lia).
  assert (no_fault tasks filterColumn Date (healthy [t1; t2; t3])
            page3_request) as Hnf by (repeat split; reflexivity).
  destruct (getTasks_pagination cell tasks filterColumn Date
              (healthy [t1; t2; t3]) page3_request Hp Hpp Hnf)
    as (Hoff & _ & pc & Hget & Hb & _).
  split; [exact Hp|]. split; [exact Hpp|]. split; [exact Hnf|]. split.
  - rewrite Hoff. reflexivity.
  - rewrite Hget. cbn in Hb. replace pc with 2 by lia. reflexivity.
Defined.

Lemma orderBy_fallback_witness :
  sort request = None ∧
  orderBy tasks request = desc (Col c_createdAt) ∧
  column nosuch_request = Some "nosuch" ∧
  Schema.props tasks !! "nosuch" = None ∧
  orderBy tasks nosuch_request = desc (Col c_id).
Proof.
  destruct (orderBy_fallback tasks request) as (Habsent & _ & _).
  destruct (orderBy_fallback tasks nosuch_request) as (_ & _ & Hunknown).
  split; [reflexivity|]. split; [exact (Habsent eq_refl)|].
  split; [reflexivity|]. split; [reflexivity|].
  exact (Hunknown "nosuch" eq_refl eq_refl).
Defined.

Lemma aggregates_never_throw_witness :
  lookup_fresh (entry_key (CountByStatus "done")) 0 ∅ = None ∧
  fault (broken [t1; t2; t3]) (statement tasks (CountByStatus "done")) ≠ None ∧
  ∃ st, getTaskCountByStatus cell tasks (broken [t1; t2; t3]) "done" 0 ∅
        = Return (JNum 0, st).
Proof.
  assert (fault (broken [t1; t2; t3]) (statement tasks (CountByStatus "done"))
          ≠ None) as Hf by discriminate.
  split; [reflexivity|]. split; [exact Hf|].
  destruct (aggregates_never_throw cell tasks (CountByStatus "done")
              (broken [t1; t2; t3]) 0 ∅) as (v & st & Hrun & Hv).
  exists st. cbn in Hrun. rewrite Hrun. rewrite (Hv eq_refl Hf). reflexivity.
Defined.

Lemma zero_rows_absent_witness :
  (∀ r, r ∈ table (healthy [t1; t2; t3]) →
        key_of (cell c_status r) ≠ "canceled") ∧
  (∃ m st, getTaskStatusCounts cell tasks (healthy [t1; t2; t3]) 0 ∅
           = Return (JObj m, st) ∧ m !! "canceled" = None ∧
           ∀ k n, m !! k = Some n → 0 < n) ∧
  (∃ st, getTaskCountByStatus cell tasks (healthy [t1; t2; t3]) "canceled" 0 ∅
         = Return (JNum 0, st)).
Proof.
  assert (∀ r, r ∈ table (healthy [t1; t2; t3]) →
               key_of (cell c_status r) ≠ "canceled") as Hnone.
  { intros r Hr. cbn in Hr.
    repeat (apply elem_of_cons in Hr as [->|Hr]); try discriminate.
    by apply elem_of_nil in Hr. }
  destruct (zero_rows_absent cell tasks (healthy [t1; t2; t3]) 0 ∅ "canceled")
    as [Hstatus _].
  destruct (Hstatus Hnone) as [Hmap Hscalar].
  split; [exact Hnone|]. split; [exact (Hmap eq_refl)|exact (Hscalar eq_refl)].
Defined.

Lemma aggregate_entries_tagged_witness :
  lookup_fresh (entry_key StatusCounts) 100 ∅ = None ∧
  ∃ v st e,
    getTaskStatusCounts cell tasks (healthy [t1; t2; t3]) 100 ∅
    = Return (v, st) ∧
    st !! ["task-status-counts"] = Some e ∧
    expiresAt e = 1000 ∧
    entry_tags e = ["task-count"; "task-status-counts"].
Proof.
  assert (lookup_fresh (entry_key StatusCounts) 100 ∅ = None) as Hmiss
    by reflexivity.
  split; [exact Hmiss|].
  destruct (aggregate_entries_tagged cell tasks StatusCounts
              (healthy [t1; t2; t3]) 100 ∅ Hmiss)
    as (v & st & Hrun & He & _).
  exists v, st. eexists. split; [exact Hrun|]. split; [exact He|].
  split; reflexivity.
Defined.

Lemma getTasks_past_last_page_witness :
  1 ≤ per_page page3_request ∧
  no_fault tasks filterColumn Date (healthy [t1; t2; t3]) page3_request ∧
  3 ≤ offset page3_request ∧
  ∃ pc, getTasks cell tasks filterColumn Date (healthy [t1; t2; t3])
          page3_request
        = Return {| data := []; pageCount := Num pc |} ∧ 0 < pc.
Proof.
  assert (1 ≤ per_page page3_request) as Hpp by (cbn; lia).
  assert (no_fault tasks filterColumn Date (healthy [t1; t2; t3])
            page3_request) as Hnf by (repeat split; reflexivity).
  assert (3 ≤ offset page3_request) as Hoff by (unfold offset; cbn; lia).
  destruct (getTasks_past_last_page cell tasks filterColumn Date
              (healthy [t1; t2; t3]) page3_request Hpp) as [Hpast _].
  destruct (Hpast Hnf ltac:(vm_compute; reflexivity) Hoff)
    as (pc & Hget & Hpos & _).
  split; [exact Hpp|]. split; [exact Hnf|]. split; [exact Hoff|].
  exists pc. split; [exact Hget|exact Hpos].
Defined.
End DemoFacts.

(** * Further properties *)

(** ** Splitting the sort string *)

Lemma append_String (c : ascii) (s t : string) :
  String c s +:+ t = String c (s +:+ t).
Proof. reflexivity. Qed.

Lemma split_dot_nonempty (s : string) : split_dot s ≠ [].
Proof.
  induction s as [|c s IH]; [done|]. cbn.
  destruct (Ascii.eqb c "."); [done|]. by destruct (split_dot s).
Qed.

(** Splitting a string with a dot put between two pieces gives the parts
    of the first piece followed by the parts of the second. *)
Lemma split_dot_app (a b : string) :
  split_dot (a +:+ "." +:+ b) = (split_dot a ++ split_dot b)%list.
Proof.
  induction a as [|c a IH]; [done|].
  rewrite append_String. cbn. rewrite IH.
  destruct (Ascii.eqb c "."); [done|].
  pose proof (split_dot_nonempty a). by destruct (split_dot a).
Qed.

Lemma split_dot_dotless (s : string) :
  dotless s = true → split_dot s = [s].
Proof.
  induction s as [|c s IH]; [done|]. cbn.
  destruct (Ascii.eqb c "."); [done|]. cbn. by intros ->%IH.
Qed.

Lemma split_dot_parts_dotless (s p : string) :
  p ∈ split_dot s → dotless p = true.
Proof.
  revert p. induction s as [|c s IH]; intros p.
  - cbn. by intros ->%list_elem_of_singleton.
  - cbn. destruct (Ascii.eqb c ".") eqn:Hc.
    + intros [->|Hp]%elem_of_cons; [done|by apply IH].
    + pose proof (split_dot_nonempty s).
      destruct (split_dot s) as [|h t]; [done|].
      intros [->|Hp]%elem_of_cons.
      * cbn. rewrite Hc. apply IH. by left.
      * apply IH. by right.
Qed.

Lemma concat_cons (h : string) (t : list string) :
  t ≠ [] → String.concat "." (h :: t) = h +:+ "." +:+ String.concat "." t.
Proof. by destruct t. Qed.

Lemma concat_String (c : ascii) (h : string) (t : list string) :
  String.concat "." (String c h :: t) = String c (String.concat "." (h :: t)).
Proof. by destruct t. Qed.

(** Joining the parts of a split with dots gives the string back: the
    split loses nothing of the sort string, and no part contains a dot. *)
Theorem split_dot_join (s : string) :
  join_dot (split_dot s) = s ∧ ∀ p, p ∈ split_dot s → dotless p = true.
Proof.
  split; [|intros p; apply split_dot_parts_dotless].
  unfold join_dot. induction s as [|c s IH]; [done|]. cbn.
  destruct (Ascii.eqb_spec c ".") as [->|_].
  - rewrite concat_cons by apply split_dot_nonempty. by rewrite IH.
  - pose proof (split_dot_nonempty s).
    destruct (split_dot s) as [|h t]; [done|].
    by rewrite concat_String, IH.
Qed.

Lemma filter_Boolean_app (xs ys : list string) :
  filter_Boolean (xs ++ ys) = (filter_Boolean xs ++ filter_Boolean ys)%list.
Proof. apply List.filter_app. Qed.

Lemma filter_Boolean_singleton (s : string) :
  filter_Boolean [s] = if decide (s = "") then [] else [s].
Proof.
  unfold filter_Boolean. cbn.
  destruct (String.eqb_spec s ""); by destruct (decide _).
Qed.

(** X1. Empty segments of the sort string do not count: a dot in front, a
    dot at the end or a doubled dot leaves the non-empty parts, hence the
    column and the direction, as they are. *)
Theorem stray_dots_ignored (s : string) :
  filter_Boolean (split_dot ("." +:+ s)) = filter_Boolean (split_dot s) ∧
  filter_Boolean (split_dot (s +:+ ".")) = filter_Boolean (split_dot s) ∧
  ∀ t, filter_Boolean (split_dot (s +:+ ".." +:+ t))
       = filter_Boolean (split_dot (s +:+ "." +:+ t)).
Proof.
  split; [done|]. split.
  - change (s +:+ ".") with (s +:+ "." +:+ "").
    rewrite split_dot_app, filter_Boolean_app. cbn. by rewrite app_nil_r.
  - intros t. change (s +:+ ".." +:+ t) with (s +:+ "." +:+ ("." +:+ t)).
    by rewrite !split_dot_app, !filter_Boolean_app.
Qed.

Section SortFacts.
Context {Column : Type}.
Variable tasks : Schema.PgTable Column.

Lemma sort_parts_pair (input : GetTasksSchema) (k d : string) :
  sort input = Some (k +:+ "." +:+ d) →
  k ≠ "" → dotless k = true → dotless d = true →
  sort_parts input = k :: (if decide (d = "") then [] else [d]).
Proof.
  intros Hs Hk Hdk Hdd. unfold sort_parts. rewrite Hs.
  rewrite split_dot_app, filter_Boolean_app.
  rewrite (split_dot_dotless k), (split_dot_dotless d) by done.
  rewrite !filter_Boolean_singleton.
  by rewrite decide_False.
Qed.

(** X2. For a sort string "<column>.<direction>" whose column names a
    column of the table object, the rows are ordered by that column:
    ascending when the direction is exactly "asc", descending for every
    other direction, a missing one included. *)
Theorem orderBy_recognized (input : GetTasksSchema) (k d : string)
    (c : Column) :
  sort input = Some (k +:+ "." +:+ d) →
  k ≠ "" → dotless k = true → dotless d = true →
  Schema.props tasks !! k = Some (Some c) →
  column input = Some k ∧
  order input = (if decide (d = "") then None else Some d) ∧
  orderBy tasks input
  = if decide (d = "asc") then asc (Col c) else desc (Col c).
Proof.
  intros Hs Hk Hdk Hdd Hc.
  pose proof (sort_parts_pair _ _ _ Hs Hk Hdk Hdd) as Hp.
  assert (column input = Some k) as Hcol by (unfold column; by rewrite Hp).
  assert (order input = if decide (d = "") then None else Some d) as Hord.
  { unfold order. rewrite Hp. by destruct (decide (d = "")). }
  split; [done|]. split; [done|].
  rewrite (orderBy_column _ _ _ _ Hcol Hk Hc), Hord.
  destruct (decide (d = "asc")) as [->|Hne].
  - by rewrite bool_decide_eq_true_2.
  - rewrite bool_decide_eq_false_2; [done|].
    destruct (decide (d = "")); congruence.
Qed.
End SortFacts.

(** ** Ordered rows *)

Lemma value_leb_refl (v : Value) : value_leb v v = true.
Proof.
  destruct v as [s|t]; cbn; [|lia].
  apply Is_true_true. change (String.le s s). reflexivity.
Qed.

Lemma value_leb_trans (a b c : Value) :
  value_leb a b = true → value_leb b c = true → value_leb a c = true.
Proof.
  destruct a as [x|x], b as [y|y], c as [z|z]; cbn; try done.
  - intros Hxy%Is_true_true Hyz%Is_true_true. apply Is_true_true.
    change (String.le x z). by trans y.
  - lia.
Qed.

Lemma value_leb_antisym (a b : Value) :
  value_leb a b = true → value_leb b a = true → a = b.
Proof.
  destruct a as [x|x], b as [y|y]; cbn; try done.
  - intros Hxy Hyx. f_equal. by apply String.leb_antisym.
  - intros Hxy Hyx. f_equal. lia.
Qed.

Section OrderFacts.
Context {Column Task : Type}.
Variable cell : Column → Task → Value.

Local Abbreviation in_order := (in_order cell).

Lemma in_order_trans (o : OrderBy Column) : Transitive (in_order o).
Proof.
  intros a b c. unfold in_order, before.
  destruct o as [[k| |]|[k| |]]; try done; eauto using value_leb_trans.
Qed.

Lemma insert_row_HdRel (R : relation Task) (le : Task → Task → bool)
    (x y : Task) (l : list Task) :
  HdRel R y l → R y x → HdRel R y (insert_row le x l).
Proof.
  intros Hl Hx. destruct l as [|z l]; cbn; [by constructor|].
  destruct (le x z); constructor; [done|]. by inversion Hl.
Qed.

Lemma insert_row_Sorted (le : Task → Task → bool) (x : Task)
    (l : list Task) :
  (∀ y, y ∈ l → le x y = true ∨ le y x = true) →
  Sorted (fun a b => le a b = true) l →
  Sorted (fun a b => le a b = true) (insert_row le x l).
Proof.
  intros Htot Hs. induction Hs as [|y l Hs IH Hhd]; cbn.
  - by repeat constructor.
  - destruct (le x y) eqn:Hxy.
    + constructor; [by constructor|by constructor].
    + constructor.
      * apply IH. intros z Hz. apply Htot. by right.
      * apply insert_row_HdRel; [done|].
        destruct (Htot y) as [H|H]; [by left|congruence|done].
Qed.

(** Ordering puts comparable rows in the order of the term. *)
Lemma order_rows_Sorted (o : OrderBy Column) (rows : list Task) :
  (∀ r r', r ∈ rows → r' ∈ rows →
           before cell o r r' = true ∨ before cell o r' r = true) →
  Sorted (in_order o) (order_rows cell o rows).
Proof.
  unfold order_rows, in_order.
  induction rows as [|r rows IH]; intros Htot; cbn; [constructor|].
  apply insert_row_Sorted.
  - intros y Hy. apply Htot; [by left|].
    right. by rewrite <- (order_rows_Permutation cell o rows).
  - apply IH. intros a b Ha Hb. apply Htot; by right.
Qed.

(** When the order by a column is determined on the rows, the rows have
    one order only: every arrangement of them that follows the term is
    the one [order_rows] gives. *)
Lemma order_rows_unique (o : OrderBy Column) (c : Column)
    (rows L : list Task) :
  o = asc (Col c) ∨ o = desc (Col c) →
  determined cell c rows →
  L ≡ₚ rows → Sorted (in_order o) L →
  order_rows cell o rows = L.
Proof.
  intros Ho [Hcmp Hties] Hperm HL.
  pose proof (in_order_trans o).
  apply (Sorted_unique_strong (in_order o)).
  - intros a b Ha Hb Hab Hba. apply Hties.
    + by rewrite <- (order_rows_Permutation cell o rows).
    + by rewrite <- Hperm.
    + unfold in_order, before in Hab, Hba.
      destruct Ho as [-> | ->]; eauto using value_leb_antisym.
  - apply order_rows_Sorted. intros r r' Hr Hr'.
    destruct Ho as [-> | ->]; cbn; [|rewrite (or_comm _)]; by apply Hcmp. 
  - done.
  - by rewrite order_rows_Permutation.
Qed.
End OrderFacts.

(** ** Filters and pages *)

Section PageFacts.
Context {Column Task : Type}.
Variable cell : Column → Task → Value.
Variable tasks : Schema.PgTable Column.
Variable filterColumn : Column → string → bool → option (SQL Column Task).
Variable Date : string → Value.

Local Abbreviation getTasks := (getTasks cell tasks filterColumn Date).
Local Abbreviation no_fault := (no_fault tasks filterColumn Date).
Local Abbreviation where_ := (where_ tasks filterColumn Date).
Local Abbreviation expressions := (expressions tasks filterColumn Date).

Lemma matching_None (rows : list Task) : matching cell None rows = rows.
Proof.
  unfold matching. induction rows as [|r rows IH]; [done|].
  cbn. by rewrite IH.
Qed.

Lemma where_and_like (input : GetTasksSchema) :
  operator input ∈ [None; Some ""; Some "and"] →
  where_ input = drizzle.and (expressions input).
Proof.
  intros Hin. unfold where_.
  repeat (apply elem_of_cons in Hin as [->|Hin]); [done..|].
  by apply elem_of_nil in Hin.
Qed.

Lemma where_few (input : GetTasksSchema) :
  (length (present (expressions input)) ≤ 1)%nat →
  where_ input = head (present (expressions input)).
Proof.
  intros Hlen. unfold where_, drizzle.and, drizzle.or.
  destruct (present (expressions input)) as [|e [|e' l]]; cbn in *;
    [by destruct (_ || _)..|lia].
Qed.

(** X3. With no active filter (title, status, priority, from and to unset
    or empty) the query has no condition, whatever the combinator, and
    every row of the table matches. *)
Theorem no_filter_matches_all (input : GetTasksSchema) (rows : list Task) :
  truthy (title input) = false → truthy (status input) = false →
  truthy (priority input) = false → truthy (from input) = false →
  truthy (to input) = false →
  where_ input = None ∧ matching cell (where_ input) rows = rows.
Proof.
  intros Ht Hs Hp Hf Hto.
  assert (where_ input = None) as Hw.
  { assert (present (expressions input) = []) as He
      by (unfold expressions, fromDate, toDate;
          by rewrite Ht, Hs, Hp, Hf, Hto).
    rewrite where_few; rewrite He; [done|cbn; lia]. }
  split; [done|]. rewrite Hw. apply matching_None.
Qed.

(** X4. With at most one active predicate the combinator has no effect:
    the condition is that predicate, or none. *)
Theorem where_single (input : GetTasksSchema) :
  (length (present (expressions input)) ≤ 1)%nat →
  where_ input = head (present (expressions input)) ∧
  ∀ op, where_ (with_operator input op) = where_ input.
Proof.
  intros Hlen. split; [by apply where_few|].
  intros op. rewrite (where_few input Hlen).
  exact (where_few (with_operator input op) Hlen).
Qed.

Lemma getTasks_cases (db : Db Column Task) (input : GetTasksSchema) :
  getTasks db input
  = Return {| data := take (Z.to_nat (per_page input))
                        (drop (Z.to_nat (offset input))
                           (order_rows cell (orderBy tasks input)
                              (matching cell (where_ input) (table db))));
              pageCount :=
                Math_ceil_div
                  (Z.of_nat (length (matching cell (where_ input) (table db))))
                  (per_page input) |}
  ∨ getTasks db input = Return {| data := []; pageCount := Num 0 |}.
Proof.
  destruct (no_fault_dec tasks filterColumn Date db input) as [Hnf|Hf].
  - left. by apply getTasks_no_fault.
  - right. by apply getTasks_fault, fetch_fault.
Qed.

Lemma rows_accepted (db : Db Column Task) (input : GetTasksSchema)
    (res : Result Task) (r : Task) :
  getTasks db input = Return res → r ∈ data res →
  r ∈ table db ∧ accepts cell (where_ input) r = true.
Proof.
  intros Hres Hr.
  destruct (getTasks_cases db input) as [H|H]; rewrite H in Hres;
    injection Hres as <-; cbn in Hr; [|by apply elem_of_nil in Hr].
  apply subseteq_take, subseteq_drop in Hr.
  rewrite order_rows_Permutation in Hr.
  by apply elem_of_matching in Hr.
Qed.

(** X5. For a request with perPage ≥ 1, the rows a call resolves to are
    rows of the table that the condition accepts, and there are at most
    [per_page] of them; this holds whether the storage serves the request
    or fails. *)
Theorem getTasks_rows_sound (db : Db Column Task) (input : GetTasksSchema) :
  1 ≤ per_page input →
  ∃ res, getTasks db input = Return res ∧
         Z.of_nat (length (data res)) ≤ per_page input ∧
         ∀ r, r ∈ data res →
              r ∈ table db ∧ accepts cell (where_ input) r = true.
Proof.
  intros Hpp.
  destruct (getTasks_cases db input) as [H|H]; eexists; (split; [exact H|]).
  - split; [cbn; rewrite length_take; lia|].
    intros r. by apply rows_accepted.
  - split; [cbn; lia|]. intros r. by apply rows_accepted.
Qed.

Lemma elem_of_present {A} (xs : list (option A)) (x : A) :
  x ∈ present xs ↔ Some x ∈ xs.
Proof.
  unfold present. rewrite list_elem_of_omap. split.
  - by intros ([y|] & Hy & [= ->]).
  - intros Hx. by exists (Some x).
Qed.

(** X6. Under the AND combinator (unset, empty or "and") every returned
    row satisfies each active predicate; in particular its creation time
    lies within the date range, both bounds included. *)
Theorem getTasks_date_range (db : Db Column Task) (input : GetTasksSchema)
    (res : Result Task) (r : Task) :
  operator input ∈ [None; Some ""; Some "and"] →
  getTasks db input = Return res → r ∈ data res →
  (∀ e, e ∈ present (expressions input) → holds cell e r = true) ∧
  (∀ s, from input = Some s → s ≠ "" →
        value_leb (Date s) (cell (Schema.createdAt tasks) r) = true) ∧
  (∀ s, to input = Some s → s ≠ "" →
        value_leb (cell (Schema.createdAt tasks) r) (Date s) = true).
Proof.
  intros Hop Hres Hr.
  apply (rows_accepted _ _ _ _ Hres) in Hr as [_ Hacc].
  rewrite (where_and_like _ Hop), accepts_and in Hacc.
  rewrite forallb_forall in Hacc.
  assert (∀ e, e ∈ present (expressions input) → holds cell e r = true) as Hall
    by (intros e He; by apply Hacc, list_elem_of_In).
  split; [done|]. split; intros s Hs Hne.
  - apply (Hall (gte (Schema.createdAt tasks) (Date s))).
    apply elem_of_present. unfold expressions, fromDate. rewrite Hs. cbn.
    destruct (String.eqb_spec s ""); [done|]. cbn.
    do 3 right. by left.
  - apply (Hall (lte (Schema.createdAt tasks) (Date s))).
    apply elem_of_present. unfold expressions, toDate. rewrite Hs. cbn.
    destruct (String.eqb_spec s ""); [done|]. cbn.
    do 4 right. by left.
Qed.

Lemma concat_pages (m : nat) (l : list Task) (n : nat) :
  mjoin ((fun k => take m (drop (k * m) l)) <$> seq 0 n) = take (n * m) l.
Proof.
  induction n as [|n IH]; [done|].
  rewrite seq_S, fmap_app, join_app, IH. cbn.
  rewrite app_nil_r, take_take_drop. f_equal. lia.
Qed.

Lemma rows_of_page (db : Db Column Task) (input : GetTasksSchema) (k : nat) :
  (∀ st, fault db st = None) → 0 ≤ per_page input →
  rows_of (getTasks db (with_page input (Z.of_nat (S k))))
  = take (Z.to_nat (per_page input))
      (drop (k * Z.to_nat (per_page input))
         (order_rows cell (orderBy tasks input)
            (matching cell (where_ input) (table db)))).
Proof.
  intros Hh Hpp.
  rewrite getTasks_no_fault by (by repeat split).
  cbn. do 2 f_equal. unfold offset. cbn.
  replace (Z.of_nat (S k) - 1) with (Z.of_nat k) by lia.
  rewrite Z2Nat.inj_mul by lia. by rewrite Nat2Z.id.
Qed.

Lemma pages_join (db : Db Column Task) (input : GetTasksSchema)
    (d : list Task) (pc : Z) :
  (∀ st, fault db st = None) → 1 ≤ per_page input →
  getTasks db input = Return {| data := d; pageCount := Num pc |} →
  mjoin ((fun p => rows_of (getTasks db (with_page input (Z.of_nat p))))
           <$> seq 1 (Z.to_nat pc))
  = order_rows cell (orderBy tasks input)
      (matching cell (where_ input) (table db)).
Proof.
  intros Hh Hpp Hres.
  rewrite getTasks_no_fault, Math_ceil_div_pos in Hres
    by (done || by repeat split).
  injection Hres as _ Hpc.
  pose proof (ceil_div_bounds
                (Z.of_nat (length (matching cell (where_ input) (table db))))
                (per_page input) Hpp) as Hb.
  rewrite Hpc in Hb.
  rewrite <- fmap_S_seq, <- list_fmap_compose.
  erewrite list_fmap_ext; [|intros i k _; apply rows_of_page; [done|lia]].
  rewrite concat_pages. apply take_ge.
  rewrite length_order_rows.
  assert (Z.of_nat (Z.to_nat pc * Z.to_nat (per_page input))
          = pc * per_page input) by nia.
  lia.
Qed.

Lemma determined_matching (c : Column) (w : option (SQL Column Task))
    (rows : list Task) :
  determined cell c rows → determined cell c (matching cell w rows).
Proof.
  intros [Hcmp Hties]. split.
  - intros r r' [Hr _]%elem_of_matching [Hr' _]%elem_of_matching. by apply Hcmp.
  - intros r r' [Hr _]%elem_of_matching [Hr' _]%elem_of_matching.
    by apply Hties.
Qed.

(** X8. Over a storage that serves every statement, for a query ordered by
    a column in which the rows of the table are comparable and no two of
    them tie, the pages 1 to pageCount, one after the other, are exactly
    the matching rows in the order of that column, whichever way the rows
    are put in that order: no row is skipped and none is given twice. *)
Theorem pages_cover (db : Db Column Task) (input : GetTasksSchema)
    (d : list Task) (pc : Z) (c : Column) (L : list Task) :
  (∀ st, fault db st = None) → 1 ≤ per_page input →
  getTasks db input = Return {| data := d; pageCount := Num pc |} →
  orderBy tasks input = asc (Col c) ∨ orderBy tasks input = desc (Col c) →
  determined cell c (table db) →
  L ≡ₚ matching cell (where_ input) (table db) →
  Sorted (in_order cell (orderBy tasks input)) L →
  mjoin ((fun p => rows_of (getTasks db (with_page input (Z.of_nat p))))
           <$> seq 1 (Z.to_nat pc))
  = L.
Proof.
  intros Hh Hpp Hres Ho Hdet Hperm HL.
  rewrite (pages_join _ _ _ _ Hh Hpp Hres).
  eapply order_rows_unique; [exact Ho| |done..].
  by apply determined_matching.
Qed.
End PageFacts.

(** ** The cache over time *)

Section CacheFacts.
Context {Column Task : Type}.
Variable cell : Column → Task → Value.
Variable tasks : Schema.PgTable Column.

Local Abbreviation run := (run cell tasks).
Local Abbreviation recomputed := (recomputed cell tasks).

Lemma run_recomputed (a : Aggregate) (db : Db Column Task) (now : Z)
    (store : Store) :
  run a db now store
  = cache (Return (recomputed a db)) (entry_key a)
      {| revalidate := 900; tags := ["task-count"; own_tag a] |} now store.
Proof. apply run_cache. Qed.

Lemma run_miss (a : Aggregate) (db : Db Column Task) (now : Z)
    (store : Store) :
  lookup_fresh (entry_key a) now store = None →
  run a db now store
  = Return (recomputed a db,
            <[entry_key a := {| entry_value := recomputed a db;
                                expiresAt := now + 900;
                                entry_tags := ["task-count"; own_tag a] |}]>
              store).
Proof. intros Hm. rewrite run_recomputed. by apply cache_miss. Qed.

Lemma lookup_fresh_insert (k : list string) (e : CacheEntry) (now : Z)
    (store : Store) :
  lookup_fresh k now (<[k := e]> store)
  = if now <? expiresAt e then Some (entry_value e) else None.
Proof. unfold lookup_fresh. by rewrite lookup_insert_eq. Qed.

Lemma lookup_fresh_revalidated (k : list string) (tag : string) (now : Z)
    (store : Store) (e : CacheEntry) :
  store !! k = Some e → tag ∈ entry_tags e →
  lookup_fresh k now (revalidateTag tag store) = None.
Proof.
  intros He Ht. unfold lookup_fresh.
  rewrite revalidateTag_lookup, He. cbn. by rewrite decide_True.
Qed.

(** X10. Once an operation has computed its value, every call within the
    next 900 seconds resolves to that same value and leaves the cache as
    it is, whatever the storage holds or does by then. *)
Theorem cached_within_ttl (a : Aggregate) (db : Db Column Task) (now : Z)
    (store : Store) (v : Json) (st : Store) :
  lookup_fresh (entry_key a) now store = None →
  run a db now store = Return (v, st) →
  ∀ (db' : Db Column Task) (now' : Z),
    now' < now + 900 → run a db' now' st = Return (v, st).
Proof.
  intros Hm Hrun db' now' Hlt.
  rewrite (run_miss _ _ _ _ Hm) in Hrun. injection Hrun as <- <-.
  rewrite run_recomputed. apply cache_hit.
  rewrite lookup_fresh_insert. cbn.
  by rewrite (proj2 (Z.ltb_lt _ _) Hlt).
Qed.

(** X11. A storage failure is cached like a result: after a failed
    computation the operation resolves to 0 (or the empty record) for the
    next 900 seconds, also when the storage has recovered. *)
Theorem failure_is_cached (a : Aggregate) (db : Db Column Task) (now : Z)
    (store : Store) :
  lookup_fresh (entry_key a) now store = None →
  fault db (statement tasks a) ≠ None →
  ∃ st, run a db now store = Return (degraded a, st) ∧
        ∀ (db' : Db Column Task) (now' : Z),
          now' < now + 900 → run a db' now' st = Return (degraded a, st).
Proof.
  intros Hm Hf.
  assert (recomputed a db = degraded a) as Hd.
  { unfold recomputed.
    by destruct (fault db (statement tasks a)). }
  eexists. split; [by rewrite (run_miss _ _ _ _ Hm), Hd|].
  intros db' now' Hlt. rewrite run_recomputed. apply cache_hit.
  rewrite lookup_fresh_insert. cbn.
  by rewrite (proj2 (Z.ltb_lt _ _) Hlt).
Qed.

(** X12. After the shared tag or the entry's own tag has been
    invalidated, the next call computes the value anew from the storage,
    also within the 900 seconds. *)
Theorem recomputed_after_invalidation (a : Aggregate) (db : Db Column Task)
    (now : Z) (store : Store) (v : Json) (st : Store) :
  lookup_fresh (entry_key a) now store = None →
  run a db now store = Return (v, st) →
  ∀ (db' : Db Column Task) (now' : Z),
    (∃ st', run a db' now' (revalidateTag "task-count" st)
            = Return (recomputed a db', st')) ∧
    (∃ st', run a db' now' (revalidateTag (own_tag a) st)
            = Return (recomputed a db', st')).
Proof.
  intros Hm Hrun db' now'.
  rewrite (run_miss _ _ _ _ Hm) in Hrun. injection Hrun as <- <-.
  split.
  - eexists. apply run_miss.
    eapply lookup_fresh_revalidated; [apply lookup_insert_eq|]. cbn. by left.
  - eexists. apply run_miss.
    eapply lookup_fresh_revalidated; [apply lookup_insert_eq|]. cbn.
    right. by left.
Qed.
End CacheFacts.

(** ** What the counters count *)

Section CountFacts.
Context {Column Task : Type}.
Variable cell : Column → Task → Value.
Variable tasks : Schema.PgTable Column.

Local Abbreviation count_rows := (count_rows cell).
Local Abbreviation textual := (textual cell).
Local Abbreviation recomputed := (recomputed cell tasks).

Lemma filter_all {A} (f : A → bool) (l : list A) :
  (∀ x, x ∈ l → f x = true) → List.filter f l = l.
Proof.
  induction l as [|x l IH]; intros H; [done|].
  cbn. rewrite (H x) by (by left). f_equal. apply IH.
  intros y Hy. apply H. by right.
Qed.

Lemma remove_dups_const {A} `{EqDecision A} (l : list A) (v : A) :
  l ≠ [] → (∀ x, x ∈ l → x = v) → remove_dups l = [v].
Proof.
  induction l as [|x l IH]; intros Hne Hall; [done|].
  cbn. assert (x = v) as -> by (apply Hall; by left).
  destruct l as [|y l].
  - cbn. done.
  - assert (y = v) as -> by (apply Hall; right; by left).
    destruct (decide_rel elem_of v (v :: l)) as [_|Hn];
      [|destruct Hn; by left].
    apply IH; [done|]. intros z Hz. apply Hall. by right.
Qed.

Lemma count_rows_nonneg (c : Column) (v : Value) (rows : list Task) :
  0 ≤ count_rows c v rows.
Proof. unfold count_rows. lia. Qed.

Lemma count_rows_pos (c : Column) (v : Value) (rows : list Task) :
  0 < count_rows c v rows ↔ ∃ r, r ∈ rows ∧ cell c r = v.
Proof.
  unfold count_rows. split.
  - intros Hpos.
    destruct (List.filter _ rows) as [|r l] eqn:E; [cbn in Hpos; lia|].
    assert (In r (List.filter (fun r => bool_decide (cell c r = v)) rows))
      as [Hr Hv%bool_decide_eq_true]%List.filter_In by (rewrite E; by left).
    exists r. by rewrite list_elem_of_In.
  - intros (r & Hr & Hv).
    assert (In r (List.filter (fun r => bool_decide (cell c r = v)) rows)) as Hin.
    { apply List.filter_In. split; [by apply list_elem_of_In|].
      by apply bool_decide_eq_true. }
    destruct (List.filter _ rows); [done|cbn; lia].
Qed.

Lemma elem_of_groups_iff (c : Column) (rows : list Task) (g : Value * Z) :
  g ∈ groups cell c rows ↔
  (∃ r, r ∈ rows ∧ cell c r = g.1) ∧ g.2 = count_rows c g.1 rows.
Proof.
  unfold groups. rewrite list_elem_of_fmap. split.
  - intros (k & -> & Hk). cbn. split; [|done].
    apply elem_of_remove_dups, list_elem_of_fmap in Hk as (r & -> & Hr).
    by exists r.
  - intros [(r & Hr & Hv) Hn]. exists g.1. split.
    + destruct g as [k n]. cbn in *. by rewrite Hn.
    + apply elem_of_remove_dups, list_elem_of_fmap. by exists r.
Qed.

(** The [having count > 0] filter drops no group: a group has a row. *)
Lemma having_groups (c : Column) (rows : list Task) :
  having 0 (groups cell c rows) = groups cell c rows.
Proof.
  unfold having. apply filter_all. intros g [Hr ->]%elem_of_groups_iff.
  apply Z.ltb_lt. by apply count_rows_pos.
Qed.

Lemma foldl_insert_other (res : list (Value * Z)) (k : string)
    (acc : gmap string Z) :
  (∀ g, g ∈ res → key_of g.1 ≠ k) →
  foldl (fun acc row => <[key_of row.1 := row.2]> acc) acc res !! k = acc !! k.
Proof.
  revert acc. induction res as [|g res IH]; intros acc Hk; [done|].
  cbn. rewrite IH by (intros; apply Hk; by right).
  apply lookup_insert_ne, Hk. by left.
Qed.

Lemma reduce_counts_lookup (res : list (Value * Z)) (g : Value * Z) :
  NoDup (key_of <$> res.*1) → g ∈ res →
  reduce_counts res !! key_of g.1 = Some g.2.
Proof.
  unfold reduce_counts. generalize (∅ : gmap string Z).
  induction res as [|g0 res IH]; intros acc Hnd Hg.
  - by apply elem_of_nil in Hg.
  - cbn in Hnd. apply NoDup_cons in Hnd as [Hnotin Hnd].
    apply elem_of_cons in Hg as [->|Hg]; cbn.
    + rewrite foldl_insert_other; [apply lookup_insert_eq|].
      intros g Hg Heq. apply Hnotin. rewrite <- Heq.
      apply list_elem_of_fmap. exists g.1. split; [done|].
      apply list_elem_of_fmap. by exists g.
    + by apply IH.
Qed.

Lemma groups_keys_NoDup (c : Column) (rows : list Task) :
  textual c rows → NoDup (key_of <$> (groups cell c rows).*1).
Proof.
  intros Htext.
  assert ((groups cell c rows).*1 = remove_dups (cell c <$> rows)) as ->.
  { unfold groups. generalize (remove_dups (cell c <$> rows)).
    intros l. induction l as [|k l IH]; [done|]. cbn. by rewrite IH. }
  apply NoDup_fmap_2_strong; [|apply NoDup_remove_dups].
  intros x y Hx Hy Hxy.
  apply elem_of_remove_dups, list_elem_of_fmap in Hx as (r & -> & Hr).
  apply elem_of_remove_dups, list_elem_of_fmap in Hy as (r' & -> & Hr').
  destruct (Htext r Hr) as [s Hs], (Htext r' Hr') as [s' Hs'].
  rewrite Hs, Hs' in *. cbn in Hxy. by rewrite Hxy.
Qed.

(** The record of grouped counts of a text column, key by key. *)
Lemma grouped_counts_lookup (c : Column) (rows : list Task) (s : string) :
  textual c rows →
  reduce_counts (having 0 (groups cell c (matching cell None rows))) !! s
  = if 0 <? count_rows c (VText s) rows
    then Some (count_rows c (VText s) rows) else None.
Proof.
  intros Htext. rewrite matching_None, having_groups.
  destruct (Z.ltb_spec 0 (count_rows c (VText s) rows)) as [Hpos|Hzero].
  - apply (reduce_counts_lookup _ (VText s, count_rows c (VText s) rows)).
    + by apply groups_keys_NoDup.
    + apply elem_of_groups_iff. split; [|done]. by apply count_rows_pos.
  - apply reduce_counts_None. intros g [(r & Hr & Hv) _]%elem_of_groups_iff Hk.
    destruct (Htext r Hr) as [t Ht]. rewrite <- Hv, Ht in Hk. cbn in Hk.
    subst t. assert (0 < count_rows c (VText s) rows); [|lia].
    apply count_rows_pos. by exists r.
Qed.

(** The scalar count of a value is the number of rows that hold it. *)
Lemma scalar_count_rows (c : Column) (rows : list Task) (v : Value) :
  default 0 (head (remove_dups
    (snd <$> having 0 (groups cell c (matching cell (Some (eq c v)) rows)))))
  = count_rows c v rows.
Proof.
  rewrite having_groups.
  change (count_rows c v rows)
    with (Z.of_nat (length (matching cell (Some (eq c v)) rows))).
  assert (∀ r, r ∈ matching cell (Some (eq c v)) rows → cell c r = v) as Hall.
  { intros r [_ Hr]%elem_of_matching. by apply bool_decide_eq_true in Hr. }
  destruct (matching cell (Some (eq c v)) rows) as [|r0 M] eqn:E; [done|].
  unfold groups. rewrite (remove_dups_const _ v).
  - cbn - [List.filter]. rewrite filter_all; [done|].
    intros r Hr. by apply bool_decide_eq_true, Hall.
  - done.
  - intros x (r & -> & Hr)%list_elem_of_fmap. by apply Hall.
Qed.

(** X14. A scalar count that is computed from a storage that answers is
    the number of rows holding the requested status (priority). *)
Theorem scalar_count_exact (db : Db Column Task) (now : Z) (store : Store)
    (v : string) :
  (fault db (statement tasks (CountByStatus v)) = None →
   lookup_fresh ["task-status-" +:+ v] now store = None →
   ∃ st, getTaskCountByStatus cell tasks db v now store
         = Return (JNum (count_rows (Schema.status tasks) (VText v) (table db)),
                   st)) ∧
  (fault db (statement tasks (CountByPriority v)) = None →
   lookup_fresh ["task-priority-" +:+ v] now store = None →
   ∃ st, getTaskCountByPriority cell tasks db v now store
         = Return (JNum (count_rows (Schema.priority tasks) (VText v)
                           (table db)), st)).
Proof.
  split; intros Hf Hm.
  - pose proof (run_miss cell tasks (CountByStatus v) db now store Hm) as Hr.
    unfold recomputed in Hr. rewrite Hf in Hr.
    eexists. etrans; [exact Hr|]. cbn. by rewrite scalar_count_rows.
  - pose proof (run_miss cell tasks (CountByPriority v) db now store Hm) as Hr.
    unfold recomputed in Hr. rewrite Hf in Hr.
    eexists. etrans; [exact Hr|]. cbn. by rewrite scalar_count_rows.
Qed.

(** X15. The grouped counts of a text column, computed from a storage that
    answers, hold for every value the number of rows with that value, and
    hold no key for a value without rows. *)
Theorem grouped_counts_exact (db : Db Column Task) (now : Z) (store : Store) :
  (textual (Schema.status tasks) (table db) →
   fault db (statement tasks StatusCounts) = None →
   lookup_fresh ["task-status-counts"] now store = None →
   ∃ m st, getTaskStatusCounts cell tasks db now store = Return (JObj m, st) ∧
           ∀ s, m !! s
                = if 0 <? count_rows (Schema.status tasks) (VText s) (table db)
                  then Some (count_rows (Schema.status tasks) (VText s)
                               (table db))
                  else None) ∧
  (textual (Schema.priority tasks) (table db) →
   fault db (statement tasks PriorityCounts) = None →
   lookup_fresh ["task-priority-counts"] now store = None →
   ∃ m st, getTaskPriorityCounts cell tasks db now store
           = Return (JObj m, st) ∧
           ∀ s, m !! s
                = if 0 <? count_rows (Schema.priority tasks) (VText s)
                            (table db)
                  then Some (count_rows (Schema.priority tasks) (VText s)
                               (table db))
                  else None).
Proof.
  split; intros Htext Hf Hm.
  - pose proof (run_miss cell tasks StatusCounts db now store Hm) as Hr.
    unfold recomputed in Hr. rewrite Hf in Hr.
    eexists _, _. split; [exact Hr|].
    intros s. by apply grouped_counts_lookup.
  - pose proof (run_miss cell tasks PriorityCounts db now store Hm) as Hr.
    unfold recomputed in Hr. rewrite Hf in Hr.
    eexists _, _. split; [exact Hr|].
    intros s. by apply grouped_counts_lookup.
Qed.

(** X16. The scalar count and the grouped counts agree: over a text column
    and a storage that answers, the count of a status is the entry of that
    status in the record of counts, 0 when the record has no such key. *)
Theorem scalar_agrees_with_grouped (db : Db Column Task) (now : Z)
    (store : Store) (v : string) :
  textual (Schema.status tasks) (table db) →
  fault db (statement tasks StatusCounts) = None →
  fault db (statement tasks (CountByStatus v)) = None →
  lookup_fresh ["task-status-counts"] now store = None →
  lookup_fresh ["task-status-" +:+ v] now store = None →
  ∃ m st st',
    getTaskStatusCounts cell tasks db now store = Return (JObj m, st) ∧
    getTaskCountByStatus cell tasks db v now store
    = Return (JNum (default 0 (m !! v)), st').
Proof.
  intros Htext Hfg Hfs Hmg Hms.
  pose proof (run_miss cell tasks StatusCounts db now store Hmg) as Hg.
  pose proof (run_miss cell tasks (CountByStatus v) db now store Hms) as Hs.
  unfold recomputed in Hg, Hs. rewrite Hfg in Hg. rewrite Hfs in Hs.
  eexists _, _, _. split; [exact Hg|].
  etrans; [exact Hs|]. cbn.
  rewrite scalar_count_rows, grouped_counts_lookup by done.
  destruct (Z.ltb_spec 0 (count_rows (Schema.status tasks) (VText v) (table db)))
    as [_|Hz]; [done|].
  pose proof (count_rows_nonneg (Schema.status tasks) (VText v) (table db)).
  cbn. do 3 f_equal. lia.
Qed.
End CountFacts.

(** ** The OR combinator and the last page *)

Section MorePageFacts.
Context {Column Task : Type}.
Variable cell : Column → Task → Value.
Variable tasks : Schema.PgTable Column.
Variable filterColumn : Column → string → bool → option (SQL Column Task).
Variable Date : string → Value.

Local Abbreviation getTasks := (getTasks cell tasks filterColumn Date).
Local Abbreviation where_ := (where_ tasks filterColumn Date).
Local Abbreviation expressions := (expressions tasks filterColumn Date).

Lemma where_or_like (input : GetTasksSchema) :
  operator input ∉ [None; Some ""; Some "and"] →
  where_ input = drizzle.or (expressions input).
Proof.
  intros Hout. unfold where_, truthy.
  destruct (operator input) as [s|] eqn:Hop; [|destruct Hout; by left].
  destruct (String.eqb_spec s "") as [->|Hne];
    [destruct Hout; right; by left|].
  cbn. rewrite bool_decide_eq_false_2; [done|].
  intros [= ->]. destruct Hout. do 2 right. by left.
Qed.

(** X7. Under the OR combinator (any combinator other than unset, empty
    or "and") with some predicate active, every returned row satisfies at
    least one of the active predicates. *)
Theorem getTasks_or_some (db : Db Column Task) (input : GetTasksSchema)
    (res : Result Task) (r : Task) :
  operator input ∉ [None; Some ""; Some "and"] →
  present (expressions input) ≠ [] →
  getTasks db input = Return res → r ∈ data res →
  ∃ e, e ∈ present (expressions input) ∧ holds cell e r = true.
Proof.
  intros Hop Hsome Hres Hr.
  apply (rows_accepted _ _ _ _ _ _ _ _ Hres) in Hr as [_ Hacc].
  rewrite (where_or_like _ Hop), accepts_or in Hacc.
  destruct (present (expressions input)) as [|e0 es] eqn:E; [done|].
  apply existsb_exists in Hacc as (e & He & Hh).
  exists e. by rewrite list_elem_of_In.
Qed.

(** X9. Over a storage that serves every statement, the last page of a
    query with matching rows is not empty: page number pageCount has at
    least one row. *)
Theorem last_page_not_empty (db : Db Column Task) (input : GetTasksSchema)
    (d : list Task) (pc : Z) :
  (∀ st, fault db st = None) → 1 ≤ per_page input →
  getTasks db input = Return {| data := d; pageCount := Num pc |} →
  0 < pc →
  rows_of (getTasks db (with_page input pc)) ≠ [].
Proof.
  intros Hh Hpp Hres Hpos.
  rewrite getTasks_no_fault, Math_ceil_div_pos in Hres
    by (done || by repeat split).
  injection Hres as _ Hpc.
  pose proof (ceil_div_bounds
                (Z.of_nat (length (matching cell (where_ input) (table db))))
                (per_page input) Hpp) as Hb.
  rewrite Hpc in Hb.
  replace pc with (Z.of_nat (S (Z.to_nat (pc - 1)))) by lia.
  rewrite rows_of_page by (done || lia).
  intros Hnil. apply (f_equal length) in Hnil.
  rewrite length_take, length_drop, length_order_rows in Hnil. cbn in Hnil.
  assert (Z.of_nat (Z.to_nat (pc - 1) * Z.to_nat (per_page input))
          = (pc - 1) * per_page input) by nia.
  lia.
Qed.
End MorePageFacts.

(** ** The further properties at concrete inputs *)

Module MoreDemoFacts.
Import Demo Demo2.

Lemma healthy_serves (rows : list Task) (st : Statement Column Task) :
  fault (healthy rows) st = None.
Proof. reflexivity. Qed.

Lemma orderBy_recognized_witness :
  sort title_request = Some ("title" +:+ "." +:+ "asc") ∧
  Schema.props tasks !! "title" = Some (Some c_title) ∧
  orderBy tasks title_request = asc (Col c_title).
Proof.
  assert (sort title_request = Some ("title" +:+ "." +:+ "asc")) as Hs
    by reflexivity.
  assert (Schema.props tasks !! "title" = Some (Some c_title)) as Hc
    by reflexivity.
  destruct (orderBy_recognized tasks title_request "title" "asc" c_title Hs
              ltac:(discriminate) eq_refl eq_refl Hc) as (_ & _ & Ho).
  split; [exact Hs|]. split; [exact Hc|]. exact Ho.
Defined.

Lemma no_filter_matches_all_witness :
  truthy (title request) = false ∧
  where_ tasks filterColumn Date request = None ∧
  matching cell (where_ tasks filterColumn Date request) [t1; t2; t3]
  = [t1; t2; t3].
Proof.
  destruct (no_filter_matches_all cell tasks filterColumn Date request
              [t1; t2; t3] eq_refl eq_refl eq_refl eq_refl eq_refl)
    as [Hw Hm].
  split; [reflexivity|]. split; [exact Hw|exact Hm].
Defined.

Lemma where_single_witness :
  (length (present (expressions tasks filterColumn Date done_request)) ≤ 1)%nat ∧
  where_ tasks filterColumn Date done_request
  = Some (eq c_status (VText "done")) ∧
  where_ tasks filterColumn Date (with_operator done_request (Some "and"))
  = where_ tasks filterColumn Date done_request.
Proof.
  assert (length (present (expressions tasks filterColumn Date done_request))
          ≤ 1)%nat as Hlen by (cbn; lia).
  destruct (where_single tasks filterColumn Date done_request Hlen)
    as [Hw Hop].
  split; [exact Hlen|]. split; [rewrite Hw; reflexivity|].
  exact (Hop (Some "and")).
Defined.

Lemma getTasks_rows_sound_witness :
  1 ≤ per_page done_request ∧
  ∃ res, getTasks cell tasks filterColumn Date (healthy [t1; t2; t3])
           done_request = Return res ∧
         t2 ∈ data res ∧
         accepts cell (where_ tasks filterColumn Date done_request) t2 = true.
Proof.
  assert (1 ≤ per_page done_request) as Hpp by (cbn; lia).
  split; [exact Hpp|].
  destruct (getTasks_rows_sound cell tasks filterColumn Date
              (healthy [t1; t2; t3]) done_request Hpp)
    as (res & Hres & _ & Hs).
  assert (t2 ∈ data res) as Hin.
  { assert (Return res
            = Return {| data := [t3; t2]; pageCount := Num 1 |}) as Heq
      by (rewrite <- Hres; reflexivity).
    injection Heq as ->. cbn. right. by left. }
  exists res. split; [exact Hres|]. split; [exact Hin|].
  exact (proj2 (Hs t2 Hin)).
Defined.

Lemma getTasks_date_range_witness :
  operator since_request ∈ [None; Some ""; Some "and"] ∧
  t1 ∈ [t3; t1] ∧
  getTasks cell tasks filterColumn Date (healthy [t1; t2; t3]) since_request
  = Return {| data := [t3; t1]; pageCount := Num 1 |} ∧
  value_leb (VTime 16) (cell c_createdAt t1) = true.
Proof.
  assert (operator since_request ∈ [None; Some ""; Some "and"]) as Hop
    by (cbn; do 2 right; by left).
  assert (getTasks cell tasks filterColumn Date (healthy [t1; t2; t3])
            since_request
          = Return {| data := [t3; t1]; pageCount := Num 1 |}) as Hres
    by reflexivity.
  assert (t1 ∈ [t3; t1]) as Hin by (right; by left).
  destruct (getTasks_date_range cell tasks filterColumn Date
              (healthy [t1; t2; t3]) since_request _ t1 Hop Hres Hin)
    as (_ & Hfrom & _).
  split; [exact Hop|]. split; [exact Hin|]. split; [exact Hres|].
  exact (Hfrom "2024-01-01T00:00" eq_refl ltac:(discriminate)).
Defined.

Lemma pages_cover_witness :
  1 ≤ per_page page3_request ∧
  getTasks cell tasks filterColumn Date (healthy [t1; t2; t3]) page3_request
  = Return {| data := []; pageCount := Num 2 |} ∧
  orderBy tasks page3_request = desc (Col c_createdAt) ∧
  determined cell c_createdAt [t1; t2; t3] ∧
  Sorted (in_order cell (orderBy tasks page3_request)) [t3; t1; t2] ∧
  (rows_of (getTasks cell tasks filterColumn Date (healthy [t1; t2; t3])
              (with_page page3_request 1))
   ++ rows_of (getTasks cell tasks filterColumn Date (healthy [t1; t2; t3])
                 (with_page page3_request 2)))%list
  = [t3; t1; t2].
Proof.
  assert (1 ≤ per_page page3_request) as Hpp by (cbn; lia).
  assert (getTasks cell tasks filterColumn Date (healthy [t1; t2; t3])
            page3_request
          = Return {| data := []; pageCount := Num 2 |}) as Hres
    by reflexivity.
  assert (orderBy tasks page3_request = desc (Col c_createdAt)) as Ho
    by reflexivity.
  assert (determined cell c_createdAt [t1; t2; t3]) as Hdet.
  { split.
    - intros r r' _ _. cbn. lia.
    - intros r r' Hr Hr' Heq. cbn in Heq.
      repeat (apply elem_of_cons in Hr as [->|Hr]);
        repeat (apply elem_of_cons in Hr' as [->|Hr']);
        try done; try (by apply elem_of_nil in Hr);
        by apply elem_of_nil in Hr'. }
  assert (Sorted (in_order cell (orderBy tasks page3_request)) [t3; t1; t2])
    as HL by (repeat constructor).
  assert ([t3; t1; t2]
          ≡ₚ matching cell (where_ tasks filterColumn Date page3_request)
               (table (healthy [t1; t2; t3]))) as Hperm.
  { cbn. etrans; [apply Permutation_swap|]. apply perm_skip.
    etrans; [apply Permutation_swap|]. done. }
  pose proof (pages_cover cell tasks filterColumn Date (healthy [t1; t2; t3])
                page3_request [] 2 c_createdAt [t3; t1; t2]
                (healthy_serves _) Hpp Hres (or_intror Ho) Hdet Hperm HL)
    as Hcover.
  split; [exact Hpp|]. split; [exact Hres|]. split; [exact Ho|].
  split; [exact Hdet|]. split; [exact HL|].
  etrans; [|exact Hcover]. reflexivity.
Defined.

Lemma cached_within_ttl_witness :
  lookup_fresh (entry_key (CountByStatus "done")) 0 ∅ = None ∧
  ∃ st, run cell tasks (CountByStatus "done") (healthy [t1; t2; t3]) 0 ∅
        = Return (JNum 2, st) ∧
        run cell tasks (CountByStatus "done") (healthy []) 899 st
        = Return (JNum 2, st).
Proof.
  assert (lookup_fresh (entry_key (CountByStatus "done")) 0 ∅ = None) as Hm
    by reflexivity.
  split; [exact Hm|]. eexists.
  assert (run cell tasks (CountByStatus "done") (healthy [t1; t2; t3]) 0 ∅
          = Return (JNum 2, _)) as Hrun by reflexivity.
  split; [exact Hrun|].
  exact (cached_within_ttl cell tasks _ _ _ _ _ _ Hm Hrun (healthy []) 899
           ltac:(lia)).
Defined.

Lemma failure_is_cached_witness :
  lookup_fresh (entry_key StatusCounts) 0 ∅ = None ∧
  fault (broken [t1; t2; t3]) (statement tasks StatusCounts) ≠ None ∧
  ∃ st, run cell tasks StatusCounts (broken [t1; t2; t3]) 0 ∅
        = Return (JObj ∅, st) ∧
        run cell tasks StatusCounts (healthy [t1; t2; t3]) 600 st
        = Return (JObj ∅, st).
Proof.
  assert (lookup_fresh (entry_key StatusCounts) 0 ∅ = None) as Hm
    by reflexivity.
  assert (fault (broken [t1; t2; t3]) (statement tasks StatusCounts) ≠ None)
    as Hf by discriminate.
  destruct (failure_is_cached cell tasks StatusCounts (broken [t1; t2; t3])
              0 ∅ Hm Hf) as (st & Hrun & Hlater).
  split; [exact Hm|]. split; [exact Hf|]. exists st.
  split; [exact Hrun|]. exact (Hlater (healthy [t1; t2; t3]) 600 ltac:(lia)).
Defined.

Lemma recomputed_after_invalidation_witness :
  lookup_fresh (entry_key (CountByStatus "done")) 0 ∅ = None ∧
  ∃ st st', run cell tasks (CountByStatus "done") (healthy [t1; t2; t3]) 0 ∅
            = Return (JNum 2, st) ∧
            run cell tasks (CountByStatus "done") (healthy [t1]) 10
              (revalidateTag "task-count" st)
            = Return (JNum 0, st').
Proof.
  assert (lookup_fresh (entry_key (CountByStatus "done")) 0 ∅ = None) as Hm
    by reflexivity.
  split; [exact Hm|]. eexists.
  assert (run cell tasks (CountByStatus "done") (healthy [t1; t2; t3]) 0 ∅
          = Return (JNum 2, _)) as Hrun by reflexivity.
  destruct (recomputed_after_invalidation cell tasks _ _ _ _ _ _ Hm Hrun
              (healthy [t1]) 10) as [[st' Hst'] _].
  exists st'. split; [exact Hrun|]. exact Hst'.
Defined.

Lemma scalar_count_exact_witness :
  fault (healthy [t1; t2; t3]) (statement tasks (CountByStatus "done")) = None ∧
  lookup_fresh ["task-status-" +:+ "done"] 0 ∅ = None ∧
  count_rows cell c_status (VText "done") [t1; t2; t3] = 2 ∧
  ∃ st, getTaskCountByStatus cell tasks (healthy [t1; t2; t3]) "done" 0 ∅
        = Return (JNum 2, st).
Proof.
  assert (lookup_fresh ["task-status-" +:+ "done"] 0 ∅ = None) as Hm
    by reflexivity.
  destruct (scalar_count_exact cell tasks (healthy [t1; t2; t3]) 0 ∅ "done")
    as [Hstatus _].
  destruct (Hstatus eq_refl Hm) as [st Hst].
  split; [reflexivity|]. split; [exact Hm|]. split; [reflexivity|].
  exists st. exact Hst.
Defined.

Lemma grouped_counts_exact_witness :
  textual cell (Schema.status tasks) (table (healthy [t1; t2; t3])) ∧
  lookup_fresh ["task-status-counts"] 0 ∅ = None ∧
  ∃ m st, getTaskStatusCounts cell tasks (healthy [t1; t2; t3]) 0 ∅
          = Return (JObj m, st) ∧
          m !! "done" = Some 2 ∧ m !! "canceled" = None.
Proof.
  assert (textual cell (Schema.status tasks) (table (healthy [t1; t2; t3])))
    as Htext by (intros r _; by eexists).
  assert (lookup_fresh ["task-status-counts"] 0 ∅ = None) as Hm
    by reflexivity.
  destruct (grouped_counts_exact cell tasks (healthy [t1; t2; t3]) 0 ∅)
    as [Hstatus _].
  destruct (Hstatus Htext eq_refl Hm) as (m & st & Hrun & Hlook).
  split; [exact Htext|]. split; [exact Hm|]. exists m, st.
  split; [exact Hrun|]. split; [exact (Hlook "done")|exact (Hlook "canceled")].
Defined.

Lemma scalar_agrees_with_grouped_witness :
  textual cell (Schema.status tasks) (table (healthy [t1; t2; t3])) ∧
  ∃ m st st',
    getTaskStatusCounts cell tasks (healthy [t1; t2; t3]) 0 ∅
    = Return (JObj m, st) ∧
    getTaskCountByStatus cell tasks (healthy [t1; t2; t3]) "todo" 0 ∅
    = Return (JNum (default 0 (m !! "todo")), st').
Proof.
  assert (textual cell (Schema.status tasks) (table (healthy [t1; t2; t3])))
    as Htext by (intros r _; by eexists).
  assert (lookup_fresh ["task-status-counts"] 0 ∅ = None) as Hmg
    by reflexivity.
  assert (lookup_fresh ["task-status-" +:+ "todo"] 0 ∅ = None) as Hms
    by reflexivity.
  split; [exact Htext|].
  exact (scalar_agrees_with_grouped cell tasks (healthy [t1; t2; t3]) 0 ∅
           "todo" Htext eq_refl eq_refl Hmg Hms).
Defined.

Lemma getTasks_or_some_witness :
  (operator done_request ∉ [None; Some ""; Some "and"]) ∧
  getTasks cell tasks filterColumn Date (healthy [t1; t2; t3]) done_request
  = Return {| data := [t3; t2]; pageCount := Num 1 |} ∧
  ∃ e, e ∈ present (expressions tasks filterColumn Date done_request) ∧
       holds cell e t2 = true.
Proof.
  assert (operator done_request ∉ [None; Some ""; Some "and"]) as Hop.
  { cbn. intros H. repeat (apply elem_of_cons in H as [H|H]; [discriminate|]).
    by apply elem_of_nil in H. }
  assert (getTasks cell tasks filterColumn Date (healthy [t1; t2; t3])
            done_request
          = Return {| data := [t3; t2]; pageCount := Num 1 |}) as Hres
    by reflexivity.
  split; [exact Hop|]. split; [exact Hres|].
  exact (getTasks_or_some cell tasks filterColumn Date (healthy [t1; t2; t3])
           done_request _ t2 Hop ltac:(discriminate) Hres
           ltac:(right; by left)).
Defined.

Lemma last_page_not_empty_witness :
  1 ≤ per_page page3_request ∧
  getTasks cell tasks filterColumn Date (healthy [t1; t2; t3]) page3_request
  = Return {| data := []; pageCount := Num 2 |} ∧
  rows_of (getTasks cell tasks filterColumn Date (healthy [t1; t2; t3])
             (with_page page3_request 2)) ≠ [].
Proof.
  assert (1 ≤ per_page page3_request) as Hpp by (cbn; lia).
  assert (getTasks cell tasks filterColumn Date (healthy [t1; t2; t3])
            page3_request
          = Return {| data := []; pageCount := Num 2 |}) as Hres
    by reflexivity.
  split; [exact Hpp|]. split; [exact Hres|].
  exact (last_page_not_empty cell tasks filterColumn Date
           (healthy [t1; t2; t3]) page3_request [] 2 (healthy_serves _) Hpp
           Hres ltac:(lia)).
Defined.
End MoreDemoFacts.
